(** * parse_csv: vacancy analysis pipeline

    A shallow embedding of [parse_csv.py]: salary normalisation
    ([clean_salaries]), the currency rate provider ([get_currency_rates]),
    the per-row salary calculator ([calculate_salary]), the keyword filter
    and the skills splitter (both built on Python's [re] module, of which
    the fragment below is modelled), the chart functions and the driver
    ([analyze_vacancies]) with its observable effects.

    Conventions.
    - A Python [str] is a sequence of Unicode code points ([pystr]); string
      literals are written in UTF-8 and decoded with [u].
    - A pandas float64 cell is an IEEE binary64 number ([float]); a missing
      value is NaN, as in pandas.
    - Printing, the HTTP request and [plt.show()] are recorded as a trace of
      [event]s; an exception that leaves a function is a [Raise] result.
    - The libraries are modelled as CPython's [re] and pandas (1.4 to 2.x,
      text columns of dtype [object]) behave; where the model does not
      follow a library, the outcome is [Unsupported] and nothing is claimed
      about it. *)

From Stdlib Require Import String Ascii.
From Stdlib Require Import List ZArith NArith Bool Lia Floats Sorted.
Import ListNotations.

Set Implicit Arguments.
Set Warnings "-register-all,-inexact-float".

(* ================================================================= *)
(** ** Python strings *)

Module PyStr.

(** A Python [str]: a list of code points. *)
Definition pystr := list N.

Definition bytes_of (s : string) : list N :=
  map N_of_ascii (list_ascii_of_string s).

Definition cont (b : N) : N := N.land b 63.
Definition is_cont (b : N) : bool := N.eqb (N.land b 192) 128.

(** UTF-8 decoding of well-formed input; a byte that does not start a
    well-formed sequence is kept as it is. *)
Fixpoint utf8_decode (bs : list N) : pystr :=
  match bs with
  | [] => []
  | b0 :: r0 =>
      if N.ltb b0 128 then b0 :: utf8_decode r0
      else
        match r0 with
        | b1 :: r1 =>
            if N.ltb b0 224 && N.leb 192 b0 && is_cont b1 then
              (N.shiftl (N.land b0 31) 6 + cont b1)%N :: utf8_decode r1
            else
              match r1 with
              | b2 :: r2 =>
                  if N.ltb b0 240 && N.leb 224 b0 && is_cont b1 && is_cont b2 then
                    (N.shiftl (N.land b0 15) 12 + N.shiftl (cont b1) 6 + cont b2)%N
                      :: utf8_decode r2
                  else
                    match r2 with
                    | b3 :: r3 =>
                        if N.leb 240 b0 && is_cont b1 && is_cont b2 && is_cont b3 then
                          (N.shiftl (N.land b0 7) 18 + N.shiftl (cont b1) 12
                           + N.shiftl (cont b2) 6 + cont b3)%N :: utf8_decode r3
                        else b0 :: utf8_decode r0
                    | [] => b0 :: utf8_decode r0
                    end
              | [] => b0 :: utf8_decode r0
              end
        | [] => [b0]
        end
  end.

(** [u "..."] is the Python string written between the quotes. *)
Definition u (s : string) : pystr := utf8_decode (bytes_of s).

Definition eqb (a b : pystr) : bool :=
  if list_eq_dec N.eq_dec a b then true else false.

Definition in_range (lo hi c : N) : bool := N.leb lo c && N.leb c hi.

(** [str.lower()] and the case folding of [re.IGNORECASE], on the Basic
    Latin, Latin-1 and Cyrillic blocks (U+0000..U+00FF, U+0400..U+045F).
    The code points of other blocks are left unchanged, which is not what
    Python does with all of them: a statement that depends on letter case
    is made for [covered] text only. *)
Definition lower (c : N) : N :=
  if in_range 65 90 c then (c + 32)%N                       (* A-Z *)
  else if in_range 192 222 c && negb (N.eqb c 215) then (c + 32)%N
  else if in_range 1024 1039 c then (c + 80)%N              (* U+0400..U+040F *)
  else if in_range 1040 1071 c then (c + 32)%N              (* U+0410..U+042F *)
  else c.

Definition str_lower (s : pystr) : pystr := map lower s.

(** Text within the blocks whose letter case is modelled: U+0000..U+00FF
    and U+0400..U+045F. *)
Definition covered (s : pystr) : bool :=
  forallb (fun c => in_range 0 255 c || in_range 1024 1119 c) s.

(** [str.isspace()] of one character, which is also the class [\s] of a
    [str] pattern. *)
Definition isspace (c : N) : bool :=
  in_range 9 13 c || in_range 28 32 c || N.eqb c 133 || N.eqb c 160
  || N.eqb c 5760 || in_range 8192 8202 c || N.eqb c 8232 || N.eqb c 8233
  || N.eqb c 8239 || N.eqb c 8287 || N.eqb c 12288.

Fixpoint lstrip (s : pystr) : pystr :=
  match s with
  | c :: r => if isspace c then lstrip r else s
  | [] => []
  end.

(** [str.strip()] with no argument. *)
Definition strip (s : pystr) : pystr := rev (lstrip (rev (lstrip s))).

(** [sep.join(parts)]. *)
Fixpoint join (sep : pystr) (parts : list pystr) : pystr :=
  match parts with
  | [] => []
  | [p] => p
  | p :: ps => p ++ sep ++ join sep ps
  end.

(** [needle in hay]: literal substring test. *)
Fixpoint prefixb (p s : pystr) : bool :=
  match p, s with
  | [], _ => true
  | a :: p', b :: s' => N.eqb a b && prefixb p' s'
  | _ :: _, [] => false
  end.

Fixpoint contains (hay needle : pystr) : bool :=
  prefixb needle hay ||
  match hay with
  | [] => false
  | _ :: hay' => contains hay' needle
  end.

End PyStr.
Import PyStr.

(* ================================================================= *)
(** ** Outcomes of Python code *)

(** The exceptions the modelled code can meet.  All of them derive from
    Python's [Exception], the class the two handlers of the program catch;
    an interrupt of the process is not modelled. *)
Inductive exn : Type :=
| ReError                      (* re.error: the pattern does not compile *)
| KeyError (key : pystr)
| TypeError
| OverflowError
| AttributeError
| IOError (msg : pystr).      (* raised by the HTTP client, the JSON decoder
                                  or the CSV reader; [msg] is [str(e)] *)

(** [Ok v]: the code returned [v].  [Raise e]: the exception [e] left it.
    [Unsupported]: the input uses a feature of a library that this model
    does not cover, and the model says nothing about the outcome. *)
Inductive result (A : Type) : Type :=
| Ok (v : A)
| Raise (e : exn)
| Unsupported.
Arguments Raise {A} e.
Arguments Unsupported {A}.

Definition bind {A B : Type} (m : result A) (f : A -> result B) : result B :=
  match m with
  | Ok v => f v
  | Raise e => Raise e
  | Unsupported => Unsupported
  end.

Declare Scope result_scope.
Delimit Scope result_scope with result.
Notation "x <- m ;; k" := (bind m (fun x => k))
  (at level 61, m at next level, right associativity) : result_scope.

(* ================================================================= *)
(** ** The fragment of Python's [re] used by the program *)

Module Re.

Inductive rep_mode : Type := Greedy | Lazy | Possessive.

Inductive anchor : Type :=
| AtBeginning          (* ^ *)
| AtBeginningString    (* \A *)
| AtEnd                (* $ *)
| AtEndString.         (* \Z *)

Inductive regex : Type :=
| Eps
| Lit (c : N)
| AnyChar                                       (* . *)
| Space (neg : bool)                            (* \s and \S *)
| At (a : anchor)
| Cat (r1 r2 : regex)
| Alt (r1 r2 : regex)
| Rep (m : rep_mode) (lo : nat) (hi : option nat) (r : regex)
| Grp (capture : bool) (r : regex).             (* (...) and (?:...) *)

(** *** Parsing (sre_parse)

    The parser reads the pattern from left to right with a stack of open
    groups.  A frame holds the alternatives already closed by [|] and the
    items of the alternative being read, both latest first. *)

Record frame : Type := mkFrame {
  f_capture : bool;
  f_alts : list regex;
  f_items : list regex
}.

Definition finish_seq (items : list regex) : regex :=
  fold_left (fun acc it => Cat it acc) items Eps.

Definition finish_frame (f : frame) : regex :=
  fold_left (fun acc a => Alt a acc) (f_alts f) (finish_seq (f_items f)).

Definition push_item (it : regex) (f : frame) : frame :=
  mkFrame (f_capture f) (f_alts f) (it :: f_items f).

Definition next_alt (f : frame) : frame :=
  mkFrame (f_capture f) (finish_seq (f_items f) :: f_alts f) [].

(** Groups nested deeper than this are not modelled (the parser of CPython
    is recursive and bounded by the interpreter's recursion limit). *)
Definition nesting_limit : nat := 64.

Inductive parsed : Type :=
| POk (r : regex)
| PError                (* re.error *)
| PUnsupported.         (* syntax outside the modelled fragment *)

(** The item a repetition operator applies to: the last one read.
    [None]: "nothing to repeat" or "multiple repeat". *)
Definition repeat_last (m : rep_mode) (lo : nat) (hi : option nat)
    (f : frame) : option frame :=
  match f_items f with
  | [] => None
  | At _ :: _ => None
  | Rep _ _ _ _ :: _ => None
  | it :: items => Some (mkFrame (f_capture f) (f_alts f) (Rep m lo hi it :: items))
  end.

Definition is_ascii_letter (c : N) : bool := in_range 65 90 c || in_range 97 122 c.
Definition is_digit (c : N) : bool := in_range 48 57 c.

(** An escape [\c] outside a character set. *)
Definition escape (c : N) : parsed :=
  if N.eqb c 115 then POk (Space false)                 (* \s *)
  else if N.eqb c 83 then POk (Space true)              (* \S *)
  else if N.eqb c 65 then POk (At AtBeginningString)    (* \A *)
  else if N.eqb c 90 then POk (At AtEndString)          (* \Z *)
  else if N.eqb c 97 then POk (Lit 7)                   (* \a *)
  else if N.eqb c 102 then POk (Lit 12)                 (* \f *)
  else if N.eqb c 110 then POk (Lit 10)                 (* \n *)
  else if N.eqb c 114 then POk (Lit 13)                 (* \r *)
  else if N.eqb c 116 then POk (Lit 9)                  (* \t *)
  else if N.eqb c 118 then POk (Lit 11)                 (* \v *)
  else if is_digit c then PUnsupported                  (* octal, group reference *)
  else if existsb (N.eqb c) [98; 66; 100; 68; 119; 87; 120; 117; 85; 78; 122]%N
       then PUnsupported                          (* \b \B \d \D \w \W \x \u \U \N \z *)
  else if is_ascii_letter c then PError                 (* bad escape *)
  else POk (Lit c).

(** [possessive] says whether the interpreter knows the possessive
    quantifiers [*+], [++] and [?+] (Python 3.11 and later); an earlier one
    reads the second sign as a repetition of a repetition. *)
Section Parser.
Variable possessive : bool.

Definition quantifier (c : N) : option (nat * option nat) :=
  if N.eqb c 42 then Some (0, None)                     (* * *)
  else if N.eqb c 43 then Some (1, None)                (* + *)
  else if N.eqb c 63 then Some (0, Some 1)              (* ? *)
  else None.

Definition apply_repeat (m : rep_mode) (q : nat * option nat) (f : frame)
    (k : frame -> parsed) : parsed :=
  match repeat_last m (fst q) (snd q) f with
  | Some f' => k f'
  | None => PError
  end.

Fixpoint parse_loop (s : pystr) (f : frame) (stack : list frame) : parsed :=
  match s with
  | [] =>
      match stack with
      | [] => POk (finish_frame f)
      | _ :: _ => PError                                (* missing ) *)
      end
  | c :: s1 =>
      if N.eqb c 92 then                                (* backslash *)
        match s1 with
        | [] => PError                                  (* bad escape (end of pattern) *)
        | e :: s2 =>
            match escape e with
            | POk it => parse_loop s2 (push_item it f) stack
            | other => other
            end
        end
      else if N.eqb c 91 || N.eqb c 123 then PUnsupported   (* [ and { *)
      else if N.eqb c 46 then parse_loop s1 (push_item AnyChar f) stack
      else if N.eqb c 94 then parse_loop s1 (push_item (At AtBeginning) f) stack
      else if N.eqb c 36 then parse_loop s1 (push_item (At AtEnd) f) stack
      else if N.eqb c 124 then parse_loop s1 (next_alt f) stack
      else if N.eqb c 40 then                           (* ( *)
        if Nat.leb nesting_limit (length stack) then PUnsupported
        else
          match s1 with
          | 63%N :: 58%N :: s3 => parse_loop s3 (mkFrame false [] []) (f :: stack)
          | 63%N :: _ => PUnsupported                   (* other (?...) extensions *)
          | _ => parse_loop s1 (mkFrame true [] []) (f :: stack)
          end
      else if N.eqb c 41 then                           (* ) *)
        match stack with
        | [] => PError                                  (* unbalanced parenthesis *)
        | parent :: stack' =>
            parse_loop s1 (push_item (Grp (f_capture f) (finish_frame f)) parent) stack'
        end
      else
        match quantifier c with
        | Some q =>
            match s1 with
            | 63%N :: s2 =>
                apply_repeat Lazy q f (fun f' => parse_loop s2 f' stack)
            | 43%N :: s2 =>
                if possessive
                then apply_repeat Possessive q f (fun f' => parse_loop s2 f' stack)
                else apply_repeat Greedy q f (fun f' => parse_loop s1 f' stack)
            | _ => apply_repeat Greedy q f (fun f' => parse_loop s1 f' stack)
            end
        | None => parse_loop s1 (push_item (Lit c) f) stack
        end
  end.

Definition parse (pattern : pystr) : parsed :=
  parse_loop pattern (mkFrame false [] []) [].

End Parser.

(** *** Matching (the backtracking engine of _sre)

    A cursor is a position in the subject and the text from there on.  A
    matcher tries the ways its expression can match at a cursor, in the
    engine's order of preference, and hands the cursor reached to the
    continuation, which stands for the rest of the pattern; the first way the
    continuation accepts decides. *)

Definition cursor : Type := nat * pystr.
Definition cont : Type := cursor -> option cursor.
Definition matcher : Type := cursor -> cont -> option cursor.

Definition chr_eq (ignorecase : bool) (c ch : N) : bool :=
  if ignorecase then N.eqb (lower ch) (lower c) else N.eqb ch c.

Definition at_ok (a : anchor) (c : cursor) : bool :=
  match a with
  | AtBeginning | AtBeginningString => Nat.eqb (fst c) 0
  | AtEnd =>
      match snd c with
      | [] => true
      | [ch] => N.eqb ch 10
      | _ => false
      end
  | AtEndString =>
      match snd c with
      | [] => true
      | _ => false
      end
  end.

Definition one_char (p : N -> bool) : matcher :=
  fun c k =>
    match snd c with
    | ch :: rest => if p ch then k (S (fst c), rest) else None
    | [] => None
    end.

Definition below (count : nat) (hi : option nat) : bool :=
  match hi with
  | Some h => Nat.ltb count h
  | None => true
  end.

(** [last] is where the previous optional iteration started: an iteration
    that starts at the same place again is not tried (zero-width match
    protection). *)
Definition same_place (last : option nat) (c : cursor) : bool :=
  match last with
  | Some p => Nat.eqb p (fst c)
  | None => false
  end.

(** MAX_UNTIL: the greedy repetition, entered with [count] iterations done. *)
Fixpoint until_max (body : matcher) (fuel lo : nat) (hi : option nat)
    (count : nat) (last : option nat) : matcher :=
  fun c k =>
    match fuel with
    | 0 => None
    | S fuel' =>
        if Nat.ltb count lo then
          body c (fun c' => until_max body fuel' lo hi (S count) last c' k)
        else if below count hi && negb (same_place last c) then
          match body c (fun c' =>
                  until_max body fuel' lo hi (S count) (Some (fst c)) c' k) with
          | Some e => Some e
          | None => k c
          end
        else k c
    end.

(** MIN_UNTIL: the lazy repetition. *)
Fixpoint until_min (body : matcher) (fuel lo : nat) (hi : option nat)
    (count : nat) (last : option nat) : matcher :=
  fun c k =>
    match fuel with
    | 0 => None
    | S fuel' =>
        if Nat.ltb count lo then
          body c (fun c' => until_min body fuel' lo hi (S count) last c' k)
        else
          match k c with
          | Some e => Some e
          | None =>
              if below count hi && negb (same_place last c) then
                body c (fun c' =>
                  until_min body fuel' lo hi (S count) (Some (fst c)) c' k)
              else None
          end
    end.

(** POSSESSIVE_REPEAT: every iteration takes the first way the body
    matches and is never reconsidered; the result is the cursor after the
    last iteration. *)
Fixpoint possessive_loop (body : matcher) (fuel lo : nat) (hi : option nat)
    (count : nat) (last : option nat) (c : cursor) : option cursor :=
  match fuel with
  | 0 => None
  | S fuel' =>
      if Nat.ltb count lo then
        match body c Some with
        | Some c' => possessive_loop body fuel' lo hi (S count) last c'
        | None => None
        end
      else if below count hi && negb (same_place last c) then
        match body c Some with
        | Some c' => possessive_loop body fuel' lo hi (S count) (Some (fst c)) c'
        | None => Some c
        end
      else Some c
  end.

(** Iterations enough for any repetition entered at [c]. *)
Definition rep_fuel (lo : nat) (c : cursor) : nat := lo + List.length (snd c) + 2.

Fixpoint run (ignorecase : bool) (r : regex) : matcher :=
  fun c k =>
    match r with
    | Eps => k c
    | Lit x => one_char (chr_eq ignorecase x) c k
    | AnyChar => one_char (fun ch => negb (N.eqb ch 10)) c k
    | Space neg => one_char (fun ch => xorb (isspace ch) neg) c k
    | At a => if at_ok a c then k c else None
    | Cat r1 r2 => run ignorecase r1 c (fun c' => run ignorecase r2 c' k)
    | Alt r1 r2 =>
        match run ignorecase r1 c k with
        | Some e => Some e
        | None => run ignorecase r2 c k
        end
    | Rep Greedy lo hi r' =>
        until_max (run ignorecase r') (rep_fuel lo c) lo hi 0 None c k
    | Rep Lazy lo hi r' =>
        until_min (run ignorecase r') (rep_fuel lo c) lo hi 0 None c k
    | Rep Possessive lo hi r' =>
        match possessive_loop (run ignorecase r') (rep_fuel lo c) lo hi 0 None c with
        | Some c' => k c'
        | None => None
        end
    | Grp _ r' => run ignorecase r' c k
    end.

(** One attempt at each start position from [c] on, leftmost first; the
    result is the start and the cursor at the end of the match.  With
    [must_advance] an empty match at [c] itself is refused. *)
Definition accept (must_advance : bool) (start : nat) : cont :=
  fun c' => if must_advance && Nat.eqb (fst c') start then None else Some c'.

Fixpoint search_from (ignorecase : bool) (r : regex) (must_advance : bool)
    (pos : nat) (s : pystr) : option (nat * cursor) :=
  match run ignorecase r (pos, s) (accept must_advance pos) with
  | Some e => Some (pos, e)
  | None =>
      match s with
      | [] => None
      | _ :: s' => search_from ignorecase r false (S pos) s'
      end
  end.

(** [pattern.search(s) is not None] *)
Definition search (ignorecase : bool) (r : regex) (s : pystr) : bool :=
  match search_from ignorecase r false 0 s with
  | Some _ => true
  | None => false
  end.

Fixpoint has_capture (r : regex) : bool :=
  match r with
  | Cat r1 r2 | Alt r1 r2 => has_capture r1 || has_capture r2
  | Rep _ _ _ r' => has_capture r'
  | Grp capture r' => capture || has_capture r'
  | _ => false
  end.

(** [pattern.split(s)] for a pattern without capturing groups: the pieces
    of [s] between successive matches.  [s] is the text from [pos], the end
    of the previous match, on. *)
Fixpoint split_loop (fuel : nat) (r : regex) (must_advance : bool)
    (pos : nat) (s : pystr) : list pystr :=
  match fuel with
  | 0 => [s]
  | S fuel' =>
      match search_from false r must_advance pos s with
      | None => [s]
      | Some (start, (e, rest)) =>
          firstn (start - pos) s :: split_loop fuel' r (Nat.eqb e start) e rest
      end
  end.

Definition split (r : regex) (s : pystr) : list pystr :=
  split_loop (2 * List.length s + 2) r false 0 s.

End Re.

Import Re.

(* ================================================================= *)
(** ** Python values and numbers *)

(** The values a decoded JSON document is made of, which are also the
    values a rate table can hold. *)
Inductive pyval : Type :=
| PNone
| PBool (b : bool)
| PInt (z : Z)
| PFloat (f : float)
| PStr (s : pystr)
| PList (l : list pyval)
| PDict (d : list (pystr * pyval)).

(** A [dict] with [str] keys, as an association list without repeated
    keys. *)
Definition dict : Type := list (pystr * pyval).

Fixpoint dict_lookup (d : dict) (key : pystr) : option pyval :=
  match d with
  | [] => None
  | (k, v) :: d' => if PyStr.eqb k key then Some v else dict_lookup d' key
  end.

(** [v[key]] for a [str] key. *)
Definition getitem (v : pyval) (key : pystr) : result pyval :=
  match v with
  | PDict d =>
      match dict_lookup d key with
      | Some x => Ok x
      | None => Raise (KeyError key)
      end
  | _ => Raise TypeError
  end.

(** [float(z)]: the nearest binary64 number, ties to even; [None] when [z]
    is too large (OverflowError). *)
Definition float_of_int (z : Z) : option float :=
  let f := SF2Prim (binary_normalize prec emax z 0 false) in
  if is_infinity f then None else Some f.

(** [z / d] for two [int]s, [d] positive: the correctly rounded quotient;
    [None] when it is too large (OverflowError). *)
Definition int_truediv (z : Z) (d : positive) : option float :=
  match z with
  | Z0 => Some zero
  | Zpos m =>
      let f := SF2Prim (SFdiv prec emax (S754_finite false m 0) (S754_finite false d 0)) in
      if is_infinity f then None else Some f
  | Zneg m =>
      let f := SF2Prim (SFdiv prec emax (S754_finite true m 0) (S754_finite false d 0)) in
      if is_infinity f then None else Some f
  end.

Definition int_of_bool (b : bool) : Z := if b then 1%Z else 0%Z.

Definition or_overflow (o : option float) : result float :=
  match o with
  | Some f => Ok f
  | None => Raise OverflowError
  end.

(** [v / 100] *)
Definition truediv_100 (v : pyval) : result float :=
  match v with
  | PBool b => or_overflow (int_truediv (int_of_bool b) 100)
  | PInt z => or_overflow (int_truediv z 100)
  | PFloat f => Ok (f / 100)%float
  | _ => Raise TypeError
  end.

(** [x * v] for a float [x].  A list or a string on the right is not
    modelled: what happens depends on whether [x] is a NumPy scalar. *)
Definition float_mul (x : float) (v : pyval) : result float :=
  match v with
  | PBool b => Ok (x * (if b then 1 else 0))%float
  | PInt z =>
      match float_of_int z with
      | Some f => Ok (x * f)%float
      | None => Raise OverflowError
      end
  | PFloat f => Ok (x * f)%float
  | PNone | PDict _ => Raise TypeError
  | PStr _ | PList _ => Unsupported
  end.

(** [pd.isna] of a float64 cell. *)
Definition isna (x : float) : bool := is_nan x.

(* ================================================================= *)
(** ** The vacancy table *)

Record date : Type := mkDate { d_year : Z; d_month : Z; d_day : Z }.

(** One vacancy.  A missing text cell or date is [None]; a missing salary
    bound is NaN. *)
Record row : Type := mkRow {
  name : option pystr;
  area_name : option pystr;
  published_at : option date;
  salary_from : float;
  salary_to : float;
  salary_currency : option pystr;
  key_skills : option pystr
}.

(** The dtype pandas gives a column of the file: [object] when it holds
    text; [float64] when no cell of a file with at least one row holds
    anything; [NumericDtype] stands for the columns read as values other
    than text: [int64] or [float64] when every cell present is a number,
    [bool], or [object] holding truth values, when every cell present is
    one.  The [.str] accessor refuses all but the first. *)
Inductive dtype : Type := ObjectDtype | Float64Dtype | NumericDtype.

(** A DataFrame: the rows with their index labels, and the dtypes of the
    two columns the program uses the [.str] accessor on. *)
Record DataFrame : Type := mkDF {
  name_dtype : dtype;
  key_skills_dtype : dtype;
  rows : list (nat * row)
}.

Definition with_rows (df : DataFrame) (rs : list (nat * row)) : DataFrame :=
  mkDF (name_dtype df) (key_skills_dtype df) rs.

Definition set_salary_from (v : float) (r : row) : row :=
  mkRow (name r) (area_name r) (published_at r) v (salary_to r)
        (salary_currency r) (key_skills r).

Definition set_salary_to (v : float) (r : row) : row :=
  mkRow (name r) (area_name r) (published_at r) (salary_from r) v
        (salary_currency r) (key_skills r).

(** [x.fillna(other)], cell by cell. *)
Definition fillna (x other : float) : float := if isna x then other else x.

(** [df['salary_from'] = df['salary_from'].fillna(df['salary_to'])] *)
Definition fill_salary_from (rs : list (nat * row)) : list (nat * row) :=
  map (fun ir => (fst ir, set_salary_from
                    (fillna (salary_from (snd ir)) (salary_to (snd ir))) (snd ir))) rs.

(** [df['salary_to'] = df['salary_to'].fillna(df['salary_from'])] *)
Definition fill_salary_to (rs : list (nat * row)) : list (nat * row) :=
  map (fun ir => (fst ir, set_salary_to
                    (fillna (salary_to (snd ir)) (salary_from (snd ir))) (snd ir))) rs.

(** [df.dropna(subset=['salary_from', 'salary_to'], how='all')] *)
Definition dropna_salaries (rs : list (nat * row)) : list (nat * row) :=
  filter (fun ir => negb (isna (salary_from (snd ir)) && isna (salary_to (snd ir)))) rs.

Definition clean_salaries (df : DataFrame) : DataFrame :=
  let rs := rows df in
  let rs := fill_salary_from rs in
  let rs := fill_salary_to rs in
  with_rows df (dropna_salaries rs).

Definition is_some {A : Type} (o : option A) : bool :=
  match o with
  | Some _ => true
  | None => false
  end.

(** [df.dropna(subset=['area_name', 'name'])] *)
Definition dropna_required (df : DataFrame) : DataFrame :=
  with_rows df (filter (fun ir => is_some (area_name (snd ir)) && is_some (name (snd ir)))
                       (rows df)).

(* ================================================================= *)
(** ** Observable effects *)

Inductive message : Type :=
| MsgRatesError (e : exn)        (* "Ошибка при получении курсов валют: {e}" *)
| MsgReadError (e : exn)         (* "Ошибка чтения файла: {e}" *)
| MsgNoVacancies                 (* "Нет вакансий, соответствующих критериям" *)
| MsgFound (count : nat) (years : list (option Z))
                                 (* "Найдено {count} вакансий за период {min}-{max}" of [years] *)
| MsgMean (salaries : list float)      (* "Средняя зарплата: {mean:.2f} руб" *)
| MsgMedian (salaries : list float).   (* "Медианная зарплата: {median:.2f} руб" *)

(** The figure on display when [plt.show()] is called, by the data it is
    drawn from. *)
Inductive chart : Type :=
| CitiesChart (year : Z) (areas : list (option pystr)) (top_n : nat)
| SalariesChart (points : list (option Z * float))
| SkillsChart (skills : list (option pystr)) (top_n : nat).

(** What a run does to the outside, in order.  Warnings are not
    recorded. *)
Inductive event : Type :=
| EvPrint (m : message)
| EvHttpGet                      (* requests.get(<the rates endpoint>) *)
| EvShow (c : chart).

(** A computation with effects: the trace it leaves and its outcome. *)
Definition io (A : Type) : Type := list event * result A.

Definition io_bind {A B : Type} (m : io A) (f : A -> io B) : io B :=
  match m with
  | (t, Ok v) => let (t', r) := f v in (t ++ t', r)
  | (t, Raise e) => (t, Raise e)
  | (t, Unsupported) => (t, Unsupported)
  end.

Definition io_ret {A : Type} (v : A) : io A := ([], Ok v).
Definition emit (e : event) : io unit := ([e], Ok tt).
Definition lift {A : Type} (r : result A) : io A := ([], r).

Declare Scope io_scope.
Delimit Scope io_scope with io.
Notation "x <- m ;; k" := (io_bind m (fun x => k))
  (at level 61, m at next level, right associativity) : io_scope.
Notation "m ;; k" := (io_bind m (fun _ => k))
  (at level 61, right associativity) : io_scope.

(* ================================================================= *)
(** ** The currency rate provider *)

(** What the request to the rates endpoint comes to. *)
Inductive http_outcome : Type :=
| RequestFails (e : exn)         (* requests.get raises *)
| BodyNotJson (e : exn)          (* response.json() raises *)
| Body (data : pyval).           (* response.json() returns [data] *)

Definition fallback_rates : dict :=
  [ (u "RUR", PInt 1); (u "USD", PInt 90); (u "EUR", PInt 100);
    (u "KZT", PFloat 0.18) ].

(** [data['Valute'][code]['Value']] *)
Definition valute_value (data : pyval) (code : pystr) : result pyval :=
  (valute <- getitem data (u "Valute") ;;
   entry <- getitem valute code ;;
   getitem entry (u "Value"))%result.

(** The body of the [try] block after the request. *)
Definition live_rates (data : pyval) : result dict :=
  (usd <- valute_value data (u "USD") ;;
   eur <- valute_value data (u "EUR") ;;
   kzt <- valute_value data (u "KZT") ;;
   kzt100 <- truediv_100 kzt ;;
   Ok [ (u "RUR", PInt 1); (u "USD", usd); (u "EUR", eur);
        (u "KZT", PFloat kzt100) ])%result.

Definition fetch_rates (h : http_outcome) : result dict :=
  match h with
  | RequestFails e => Raise e
  | BodyNotJson e => Raise e
  | Body data => live_rates data
  end.

(** [get_currency_rates()], given what the request comes to.  The model
    of the [try] block has no [Unsupported] outcome, see
    [fetch_rates_supported]. *)
Definition get_currency_rates (h : http_outcome) : io dict :=
  match fetch_rates h with
  | Ok rates => ([EvHttpGet], Ok rates)
  | Raise e => ([EvHttpGet; EvPrint (MsgRatesError e)], Ok fallback_rates)
  | Unsupported => ([EvHttpGet], Unsupported)
  end.

(* ================================================================= *)
(** ** The salary calculator *)

(** [currency_rates.get(code, 1)]; a missing currency cell is NaN, which is
    never a key of the table. *)
Definition rates_get (currency_rates : dict) (code : option pystr) : pyval :=
  match code with
  | Some c =>
      match dict_lookup currency_rates c with
      | Some v => v
      | None => PInt 1
      end
  | None => PInt 1
  end.

Definition calculate_salary (r : row) (currency_rates : dict) : result (option float) :=
  if isna (salary_from r) && isna (salary_to r) then Ok None
  else
    let salary := ((salary_from r + salary_to r) / 2)%float in
    (s <- float_mul salary (rates_get currency_rates (salary_currency r)) ;;
     Ok (Some s))%result.

(* ================================================================= *)
(** ** The keyword filter *)

(** The [.str] accessor refuses a column that is not of dtype [object]. *)
Definition str_accessor (d : dtype) : result unit :=
  match d with
  | ObjectDtype => Ok tt
  | Float64Dtype => Raise AttributeError
  | NumericDtype => Raise AttributeError
  end.

(** [re.compile(pattern)] *)
Definition re_compile (possessive : bool) (pattern : pystr) : result regex :=
  match parse possessive pattern with
  | POk r => Ok r
  | PError => Raise ReError
  | PUnsupported => Unsupported
  end.

(** [col.str.contains(pattern, case=False, regex=True, na=False)]: the
    pattern is compiled with [re.IGNORECASE] and searched in every cell; a
    missing cell gives [False]. *)
Definition str_contains (possessive : bool) (d : dtype) (col : list (option pystr))
    (pattern : pystr) : result (list bool) :=
  (_ <- str_accessor d ;;
   r <- re_compile possessive pattern ;;
   Ok (map (fun cell =>
              match cell with
              | Some s => search true r s
              | None => false
              end) col))%result.

(** [df[mask]] for a boolean mask as long as the frame. *)
Fixpoint select {A : Type} (l : list A) (mask : list bool) : list A :=
  match l, mask with
  | a :: l', b :: mask' => if b then a :: select l' mask' else select l' mask'
  | _, _ => []
  end.

(** [pattern = '|'.join(keywords)];
    [filtered = df[df['name'].str.contains(pattern, case=False, regex=True, na=False)]] *)
Definition keyword_filter (possessive : bool) (keywords : list pystr)
    (df : DataFrame) : result DataFrame :=
  let pattern := join (u "|") keywords in
  (mask <- str_contains possessive (name_dtype df)
             (map (fun ir => name (snd ir)) (rows df)) pattern ;;
   Ok (with_rows df (select (rows df) mask)))%result.

(* ================================================================= *)
(** ** The charts *)

(** A vacancy of the filtered table, with the two derived columns. *)
Record vacancy : Type := mkVacancy {
  v_row : row;
  year : option Z;
  salary : float
}.

Record Enriched : Type := mkEnriched {
  e_key_skills_dtype : dtype;
  e_rows : list (nat * vacancy)
}.

Definition years_of (df : Enriched) : list (option Z) :=
  map (fun iv => year (snd iv)) (e_rows df).

Fixpoint insert_sorted (y : Z) (l : list Z) : list Z :=
  match l with
  | [] => [y]
  | x :: l' => if Z.leb y x then y :: l else x :: insert_sorted y l'
  end.

(** [sorted(col.unique())] of a column without missing values. *)
Definition sorted_unique (l : list Z) : list Z :=
  fold_right insert_sorted [] (nodup Z.eq_dec l).

Fixpoint all_present {A : Type} (l : list (option A)) : option (list A) :=
  match l with
  | [] => Some []
  | Some a :: l' => option_map (cons a) (all_present l')
  | None :: _ => None
  end.

Definition year_is (y : Z) (iv : nat * vacancy) : bool :=
  match year (snd iv) with
  | Some y' => Z.eqb y' y
  | None => false
  end.

(** One round of the loop of [plot_top_cities_by_year]. *)
Definition plot_cities_of_year (df : Enriched) (top_n : nat) (y : Z) : io unit :=
  let year_data := filter (year_is y) (e_rows df) in
  if Nat.eqb (List.length year_data) 0 then io_ret tt
  else
    let areas := map (fun iv => area_name (v_row (snd iv))) year_data in
    (* value_counts() leaves missing values out and head(top_n) keeps at
       most top_n cities: no city left, no chart *)
    if existsb is_some areas && negb (Nat.eqb top_n 0)
    then emit (EvShow (CitiesChart y areas top_n))
    else io_ret tt.

Fixpoint for_each {A : Type} (f : A -> io unit) (l : list A) : io unit :=
  match l with
  | [] => io_ret tt
  | a :: l' => (f a ;; for_each f l')%io
  end.

(** The order in which [sorted] leaves a missing year (NaN) is not
    modelled; [top_n] is a count, a negative one ([head] then leaves out
    the last cities) is outside the model. *)
Definition plot_top_cities_by_year (df : Enriched) (top_n : nat) : io unit :=
  match all_present (years_of df) with
  | Some ys => for_each (plot_cities_of_year df top_n) (sorted_unique ys)
  | None => lift Unsupported
  end.

(** Plotting a table without a single year is not modelled. *)
Definition plot_salaries (df : Enriched) : io unit :=
  if existsb is_some (years_of df) then
    emit (EvShow (SalariesChart (map (fun iv => (year (snd iv), salary (snd iv))) (e_rows df))))
  else lift Unsupported.

(** The separators of the skills: a comma, the conjunction, a slash. *)
Definition skills_pattern : pystr := u ",\s*|\s*и\s*|\s*/\s*".

(** [col.str.split(pattern, regex=True)]; a missing cell stays missing.
    A pattern with capturing groups is not modelled. *)
Definition str_split (possessive : bool) (col : list (option pystr))
    (pattern : pystr) : result (list (option (list pystr))) :=
  (r <- re_compile possessive pattern ;;
   if has_capture r then Unsupported
   else Ok (map (option_map (split r)) col))%result.

(** [col.explode()]: one row per element of a list, one missing row for a
    missing cell or an empty list. *)
Definition explode (col : list (option (list pystr))) : list (option pystr) :=
  flat_map (fun cell =>
              match cell with
              | Some (x :: l) => map Some (x :: l)
              | Some [] => [None]
              | None => [None]
              end) col.

(** The start of the chain in [plot_skills]:
    [col.str.lower().str.split(...).explode().str.strip()] *)
Definition skills_of (possessive : bool) (d : dtype) (col : list (option pystr))
    : result (list (option pystr)) :=
  (_ <- str_accessor d ;;
   let lowered := map (option_map str_lower) col in
   pieces <- str_split possessive lowered skills_pattern ;;
   Ok (map (option_map strip) (explode pieces)))%result.

(** Plotting an empty count is not modelled. *)
Definition plot_skills (possessive : bool) (df : Enriched) (top_n : nat) : io unit :=
  (skills <- lift (skills_of possessive (e_key_skills_dtype df)
                     (map (fun iv => key_skills (v_row (snd iv))) (e_rows df))) ;;
   if existsb is_some skills && negb (Nat.eqb top_n 0)
   then emit (EvShow (SkillsChart skills top_n))
   else lift Unsupported)%io.

(* ================================================================= *)
(** ** The driver *)

Inductive csv_outcome : Type :=
| CsvFails (e : exn)             (* pd.read_csv raises *)
| CsvRows (rs : list row).       (* the rows read, in file order *)

(** The surroundings of a run. *)
Record world : Type := mkWorld {
  (** Python 3.11 or later: the [re] module knows possessive quantifiers *)
  possessive_quantifiers : bool;
  (** what [pd.read_csv(filename, parse_dates=['published_at'])] comes to *)
  read_csv : pystr -> csv_outcome;
  (** what the n-th request of the run to the rates endpoint comes to *)
  rates_request : nat -> http_outcome
}.

(** The characters the tokenizer of [pd.read_csv] skips around a
    number. *)
Definition ascii_space (c : N) : bool := N.eqb c 32 || in_range 9 13 c.

Definition is_sign (c : N) : bool := N.eqb c 43 || N.eqb c 45.

Fixpoint skip_spaces (s : pystr) : pystr :=
  match s with
  | c :: s' => if ascii_space c then skip_spaces s' else s
  | [] => []
  end.

Definition skip_sign (s : pystr) : pystr :=
  match s with
  | c :: s' => if is_sign c then s' else s
  | [] => []
  end.

(** The digits [s] starts with: how many, and what follows them. *)
Fixpoint digits (s : pystr) : nat * pystr :=
  match s with
  | c :: s' =>
      if in_range 48 57 c
      then let (n, rest) := digits s' in (S n, rest)
      else (0, s)
  | [] => (0, [])
  end.

(** An exponent is read when digits follow the letter and the sign; else
    the letter stays where it is. *)
Definition skip_exponent (s : pystr) : pystr :=
  match s with
  | c :: s' =>
      if N.eqb c 101 || N.eqb c 69 then
        let (n, rest) := digits (skip_sign s') in
        if Nat.eqb n 0 then s else rest
      else s
  | [] => []
  end.

(** A numeral: spaces, a sign, digits with or without a point among them
    (one digit at least), an exponent, spaces; the first and the last three
    may be absent. *)
Definition is_numeral (s : pystr) : bool :=
  let (n1, s1) := digits (skip_sign (skip_spaces s)) in
  let (n2, s2) := match s1 with
                  | c :: s' => if N.eqb c 46 then digits s' else (0, s1)
                  | [] => (0, s1)
                  end in
  negb (Nat.eqb (n1 + n2) 0) &&
  match skip_spaces (skip_exponent s2) with
  | [] => true
  | _ :: _ => false
  end.

(** The words read as an infinite number, in any letter case. *)
Definition is_infinity_word (s : pystr) : bool :=
  existsb (PyStr.eqb (str_lower s))
          [u "inf"; u "+inf"; u "-inf"; u "infinity"; u "+infinity"; u "-infinity"].

(** The cell is one [pd.read_csv] reads as a number. *)
Definition is_number (s : pystr) : bool := is_numeral s || is_infinity_word s.

(** The cell is one [pd.read_csv] reads as a truth value. *)
Definition is_truth_value (s : pystr) : bool :=
  existsb (PyStr.eqb s)
          [u "True"; u "TRUE"; u "true"; u "False"; u "FALSE"; u "false"].

Definition all_or_missing (p : pystr -> bool) (cell : option pystr) : bool :=
  match cell with
  | Some s => p s
  | None => true
  end.

(** The dtype [pd.read_csv] gives a column with these cells. *)
Definition text_dtype (col : list (option pystr)) : dtype :=
  match col with
  | [] => ObjectDtype
  | _ :: _ =>
      if negb (existsb is_some col) then Float64Dtype
      else if forallb (all_or_missing is_number) col then NumericDtype
      else if forallb (all_or_missing is_truth_value) col then NumericDtype
      else ObjectDtype
  end.

(** The frame [pd.read_csv] builds from the rows: a RangeIndex and the
    inferred dtypes. *)
Definition frame_of (rs : list row) : DataFrame :=
  mkDF (text_dtype (map name rs)) (text_dtype (map key_skills rs))
       (combine (seq 0 (List.length rs)) rs).

(** [filtered.apply(lambda row: calculate_salary(row, get_currency_rates()),
    axis=1)]: one request per row, from the [k]-th of the run on. *)
Fixpoint apply_salary (w : world) (k : nat) (rs : list (nat * row))
    : io (list (option float)) :=
  match rs with
  | [] => io_ret []
  | ir :: rs' =>
      (currency_rates <- get_currency_rates (rates_request w k) ;;
       s <- lift (calculate_salary (snd ir) currency_rates) ;;
       ss <- apply_salary w (S k) rs' ;;
       io_ret (s :: ss))%io
  end.

(** A result the calculator left out is dropped by [.dropna()] and read
    back as NaN when the column is assigned. *)
Definition salary_cell (s : option float) : float :=
  match s with
  | Some x => x
  | None => nan
  end.

Definition enrich (filtered : DataFrame) (salaries : list (option float)) : Enriched :=
  mkEnriched (key_skills_dtype filtered)
    (map (fun p => (fst (fst p),
                    mkVacancy (snd (fst p))
                              (option_map d_year (published_at (snd (fst p))))
                              (salary_cell (snd p))))
         (combine (rows filtered) salaries)).

Definition analyze_vacancies (w : world) (filename : pystr) (keywords : list pystr)
    : io unit :=
  match read_csv w filename with
  | CsvFails e => emit (EvPrint (MsgReadError e))
  | CsvRows rs =>
      let df := frame_of rs in
      let df := clean_salaries df in
      let df := dropna_required df in
      (filtered <- lift (keyword_filter (possessive_quantifiers w) keywords df) ;;
       if Nat.eqb (List.length (rows filtered)) 0 then emit (EvPrint MsgNoVacancies)
       else
         salaries <- apply_salary w 0 (rows filtered) ;;
         let filtered := enrich filtered salaries in
         emit (EvPrint (MsgFound (List.length (e_rows filtered)) (years_of filtered))) ;;
         emit (EvPrint (MsgMean (map (fun iv => salary (snd iv)) (e_rows filtered)))) ;;
         emit (EvPrint (MsgMedian (map (fun iv => salary (snd iv)) (e_rows filtered)))) ;;
         plot_top_cities_by_year filtered 10 ;;
         plot_salaries filtered ;;
         plot_skills (possessive_quantifiers w) filtered 15)%io
  end.

(* ================================================================= *)
(** ** Vocabulary of the statements *)

(** What [clean_salaries] does to one row: the two fills in the order of
    the source, and the row dropped when nothing is left. *)
Definition clean_row (ir : nat * row) : list (nat * row) :=
  let r := snd ir in
  let r1 := set_salary_from (fillna (salary_from r) (salary_to r)) r in
  let r2 := set_salary_to (fillna (salary_to r1) (salary_from r1)) r1 in
  if isna (salary_from r2) && isna (salary_to r2) then [] else [(fst ir, r2)].

(** The row [r] with both bounds set to [v]. *)
Definition with_salaries (v : float) (r : row) : row :=
  set_salary_to v (set_salary_from v r).

(** Exactly one bound of [r] is present, and it is [v]. *)
Definition only_bound (r : row) (v : float) : Prop :=
  (isna (salary_from r) = true /\ isna (salary_to r) = false /\ v = salary_to r) \/
  (isna (salary_from r) = false /\ isna (salary_to r) = true /\ v = salary_from r).

(** The vacancy of the end-to-end scenario, with the bounds given. *)
Definition sample_row (from to : float) : row :=
  mkRow (Some (u "Продавец-консультант")) (Some (u "Москва"))
        (Some (mkDate 2023 1 1)) from to (Some (u "RUR")) (Some (u "продажи")).

(** Both salary bounds of the row are present. *)
Definition complete (r : row) : Prop :=
  isna (salary_from r) = false /\ isna (salary_to r) = false.

(** The average of the salary bounds as the specification has it: of the
    bounds that are present, so that a single bound is its own average
    (the scenario's vacancy with the lower bound 50000 alone has the salary
    50000). *)
Definition spec_average (a b : float) : float :=
  if isna a then b
  else if isna b then a
  else ((a + b) / 2)%float.

(** The multiplier a rate table entry stands for when it is a number:
    the [float] the multiplication converts it to. *)
Definition multiplier (v : pyval) : option float :=
  match v with
  | PBool b => Some (if b then 1 else 0)%float
  | PInt z => float_of_int z
  | PFloat f => Some f
  | _ => None
  end.

(** [code in currency_rates] *)
Definition has_key (currency_rates : dict) (code : option pystr) : bool :=
  match code with
  | Some c => is_some (dict_lookup currency_rates c)
  | None => false
  end.

(** The row is as [clean_salaries] would have dropped it: no bound at all. *)
Definition no_bound (r : row) : bool := isna (salary_from r) && isna (salary_to r).

(** The row [r] with another currency cell. *)
Definition with_currency (code : option pystr) (r : row) : row :=
  mkRow (name r) (area_name r) (published_at r) (salary_from r) (salary_to r)
        code (key_skills r).

(** A response body of the shape the endpoint is expected to send. *)
Definition valute_of (usd eur kzt : pyval) : pyval :=
  PDict [(u "Valute",
          PDict [ (u "USD", PDict [(u "Value", usd)]);
                  (u "EUR", PDict [(u "Value", eur)]);
                  (u "KZT", PDict [(u "Value", kzt)]) ])].

(** The table the keyword filter is applied to. *)
Definition prepared (rs : list row) : DataFrame :=
  dropna_required (clean_salaries (frame_of rs)).

(** A world in which every file reads as [csv] and every request comes to
    [h]. *)
Definition constant_world (possessive : bool) (csv : csv_outcome) (h : http_outcome)
    : world :=
  mkWorld possessive (fun _ => csv) (fun _ => h).

(** The row [r] with another title. *)
Definition with_name (title : option pystr) (r : row) : row :=
  mkRow title (area_name r) (published_at r) (salary_from r) (salary_to r)
        (salary_currency r) (key_skills r).

(** The row [r] with another skills cell. *)
Definition with_skills (skills : option pystr) (r : row) : row :=
  mkRow (name r) (area_name r) (published_at r) (salary_from r) (salary_to r)
        (salary_currency r) skills.

(** The characters with a meaning of their own in a pattern
    (SPECIAL_CHARS of sre_parse): . \ [ { ( ) * + ? ^ $ | *)
Definition special (c : N) : bool :=
  existsb (N.eqb c) [46; 92; 91; 123; 40; 41; 42; 43; 63; 94; 36; 124]%N.

(** A keyword without special characters. *)
Definition plain (s : pystr) : bool := forallb (fun c => negb (special c)) s.

(** The expression of a plain keyword: its characters in a row. *)
Definition lits (s : pystr) : regex :=
  fold_right (fun c acc => Cat (Lit c) acc) Eps s.

(** The alternation of plain keywords. *)
Fixpoint alternation (keywords : list pystr) : regex :=
  match keywords with
  | [] => Eps
  | [k] => lits k
  | k :: ks => Alt (lits k) (alternation ks)
  end.

(** [keyword.lower() in title.lower()], with the empty list of keywords
    read as the empty pattern, which is found in every title. *)
Definition some_keyword_in (keywords : list pystr) (title : pystr) : bool :=
  match keywords with
  | [] => true
  | _ :: _ => existsb (fun k => contains (str_lower title) (str_lower k)) keywords
  end.

(** The test the keyword filter applies to a title cell, for the compiled
    pattern [r]. *)
Definition title_matches (r : regex) (cell : option pystr) : bool :=
  match cell with
  | Some s => search true r s
  | None => false
  end.

(** The test of the filter on a title cell when the keywords are plain. *)
Definition title_has_keyword (keywords : list pystr) (cell : option pystr) : bool :=
  match cell with
  | Some title => some_keyword_in keywords title
  | None => false
  end.

(** [c'] is reached from [c] by reading on: the text at [c'] is what is
    left of the text at [c], and the position has advanced by what was
    read. *)
Definition reaches (c c' : cursor) : Prop :=
  exists pre, snd c = pre ++ snd c' /\ fst c' = fst c + List.length pre.

(** A matcher looks at its continuation only at cursors reached from where
    it starts. *)
Definition local (m : matcher) : Prop :=
  forall (c : cursor) (k1 k2 : cont),
    (forall c', reaches c c' -> k1 c' = k2 c') -> m c k1 = m c k2.

(** A matcher succeeds only through its continuation, at a cursor reached
    from where it starts. *)
Definition forward (m : matcher) : Prop :=
  forall (c : cursor) (k : cont) (e : cursor),
    m c k = Some e -> exists c', reaches c c' /\ k c' = Some e.

(** Iterations a repetition entered at [c] with [count] done can still
    need. *)
Definition need (lo count : nat) (last : option nat) (c : cursor) : nat :=
  if Nat.ltb count lo then (lo - count) + List.length (snd c) + 2
  else if same_place last c then 1
  else List.length (snd c) + 2.

(** Rounds [split_loop] can still need on the text [s]. *)
Definition split_need (must_advance : bool) (s : pystr) : nat :=
  2 * List.length s + (if must_advance then 1 else 2).

(** Every title of the table is within the modelled blocks. *)
Definition titles_covered (df : DataFrame) : Prop :=
  forall ir title, In ir (rows df) -> name (snd ir) = Some title -> covered title = true.


(** The row has a salary bound. *)
Definition has_bound (ir : nat * row) : bool := negb (no_bound (snd ir)).

(** The currency codes of a rate table, in the order of the two dict
    literals. *)
Definition rate_codes : list pystr := [u "RUR"; u "USD"; u "EUR"; u "KZT"].

Definition is_http_get (e : event) : bool :=
  match e with
  | EvHttpGet => true
  | _ => false
  end.

(** The number of requests to the rates endpoint in a trace. *)
Definition http_requests (t : list event) : nat := List.length (filter is_http_get t).

(** Every request of the run fails, the [n]-th with the exception
    [err n]. *)
Definition endpoint_down (w : world) (err : nat -> exn) : Prop :=
  forall n, fetch_rates (rates_request w n) = Raise (err n).

(** The trace of the requests [k], ..., [k + n - 1] when each fails: the
    request, then its error message. *)
Definition failed_requests (err : nat -> exn) (k n : nat) : list event :=
  flat_map (fun i => [EvHttpGet; EvPrint (MsgRatesError (err i))]) (seq k n).

(** A computation that makes no request. *)
Definition quiet {A : Type} (m : io A) : Prop := http_requests (fst m) = 0.

(** The rows [r] and [r0] agree on every cell but the salary bounds. *)
Definition same_cells (r r0 : row) : Prop :=
  name r = name r0 /\ area_name r = area_name r0 /\
  published_at r = published_at r0 /\ salary_currency r = salary_currency r0 /\
  key_skills r = key_skills r0.

(** The rate of the fallback literal for a currency cell: 1, 90, 100 and
    0.18 for its four codes, 1 for any other code and for a missing one. *)
Definition fallback_rate (code : option pystr) : float :=
  match code with
  | Some c =>
      if PyStr.eqb (u "RUR") c then 1
      else if PyStr.eqb (u "USD") c then 90
      else if PyStr.eqb (u "EUR") c then 100
      else if PyStr.eqb (u "KZT") c then 0.18
      else 1
  | None => 1
  end%float.

(** The salary of a row at the fallback rates. *)
Definition fallback_salary (r : row) : float :=
  ((salary_from r + salary_to r) / 2 * fallback_rate (salary_currency r))%float.

(** A character that cannot start a pattern: a repetition sign or a
    closing parenthesis. *)
Definition cannot_start (c : N) : bool := existsb (N.eqb c) [42; 43; 63; 41]%N.

(** The characters the skills are split at: the comma, the slash and the
    letter of the conjunction. *)
Definition separator (c : N) : bool :=
  N.eqb c 44 || N.eqb c 47 || N.eqb c 1080.

(** White space, any amount: the expression of [\s*]. *)
Definition spaces : regex := Rep Greedy 0 None (Space false).

(** The expression [skills_pattern] compiles to. *)
Definition skills_regex : regex :=
  Alt (Cat (Lit 44) (Cat spaces Eps))
      (Alt (Cat spaces (Cat (Lit 1080) (Cat spaces Eps)))
           (Cat spaces (Cat (Lit 47) (Cat spaces Eps)))).

(** No white space at either end. *)
Definition trimmed (t : pystr) : Prop :=
  (forall c, hd_error t = Some c -> isspace c = false) /\
  (forall c, hd_error (rev t) = Some c -> isspace c = false).

(** The city cells of the rows of year [y]. *)
Definition areas_of_year (df : Enriched) (y : Z) : list (option pystr) :=
  map (fun iv => area_name (v_row (snd iv))) (filter (year_is y) (e_rows df)).

(** The chart [plot_top_cities_by_year] shows for year [y]. *)
Definition cities_chart (df : Enriched) (top_n : nat) (y : Z) : event :=
  EvShow (CitiesChart y (areas_of_year df y) top_n).

(** A file of two vacancies: the one of the scenario, with only the lower
    bound, and a teacher paid in USD. *)
Definition teacher_row : row :=
  with_name (Some (u "Учитель математики"))
            (with_currency (Some (u "USD")) (sample_row 1000 2000)).

Definition two_rows : list row := [sample_row 50000 nan; teacher_row].

(** A world with that file, the program's interpreter from 3.11 on and
    the rates endpoint out of reach. *)
Definition offline_world : world :=
  constant_world true (CsvRows two_rows) (RequestFails (IOError (u "unreachable"))).

(** The program's own keywords. *)
Definition program_keywords : list pystr := [u "Продавец"; u "учитель"].

(** A world in which the endpoint answers with [null] for USD. *)
Definition null_usd_world : world :=
  constant_world true (CsvRows [teacher_row])
                 (Body (valute_of PNone (PFloat 99.5) (PInt 18))).

(** A table of three vacancies in two years, out of order. *)
Definition three_years : Enriched :=
  mkEnriched ObjectDtype
    [ (0, mkVacancy (sample_row 1 1) (Some 2024%Z) 1%float);
      (1, mkVacancy teacher_row (Some 2023%Z) 2%float);
      (2, mkVacancy (sample_row 3 3) (Some 2024%Z) 3%float) ].

(* ================================================================= *)
(** * Properties *)

(** ** Salary normalisation *)

Lemma clean_salaries_rowwise (df : DataFrame) :
  rows (clean_salaries df) = flat_map clean_row (rows df).
Proof.
  unfold clean_salaries, with_rows; simpl.
  unfold dropna_salaries, fill_salary_to, fill_salary_from.
  induction (rows df) as [|ir rs IH]; [reflexivity|].
  cbn [map filter flat_map]. rewrite <- IH. unfold clean_row. cbn [fst snd].
  destruct (isna _ && isna _); reflexivity.
Qed.

Lemma clean_salaries_dtypes (df : DataFrame) :
  name_dtype (clean_salaries df) = name_dtype df /\
  key_skills_dtype (clean_salaries df) = key_skills_dtype df.
Proof. split; reflexivity. Qed.

Lemma clean_row_only_bound (i : nat) (r : row) (v : float) :
  only_bound r v -> clean_row (i, r) = [(i, with_salaries v r)].
Proof.
  unfold only_bound, clean_row, with_salaries, fillna; simpl.
  intros [(Hf & Ht & ->) | (Hf & Ht & ->)]; rewrite Hf; simpl.
  - rewrite !Ht; simpl. reflexivity.
  - rewrite Ht, Hf; simpl. reflexivity.
Qed.

(** C2. A row of which exactly one salary bound is present is kept by
    [clean_salaries] under its index label, both bounds present and equal to
    that one value, the other cells unchanged. *)
Theorem C2_single_bound_fills_both (df : DataFrame) (i : nat) (r : row) (v : float) :
  In (i, r) (rows df) ->
  only_bound r v ->
  In (i, with_salaries v r) (rows (clean_salaries df)) /\
  salary_from (with_salaries v r) = v /\
  salary_to (with_salaries v r) = v /\
  isna v = false.
Proof.
  intros Hin Hone. split; [|split; [reflexivity|split; [reflexivity|]]].
  - rewrite clean_salaries_rowwise. apply in_flat_map.
    exists (i, r). split; [assumption|].
    rewrite (clean_row_only_bound i Hone). left; reflexivity.
  - destruct Hone as [(_ & Ht & ->) | (Hf & _ & ->)]; assumption.
Qed.

Lemma C2_witness :
  In (0, with_salaries 50000 (sample_row 50000 nan))
     (rows (clean_salaries (mkDF ObjectDtype ObjectDtype [(0, sample_row 50000 nan)]))) /\
  salary_from (with_salaries 50000 (sample_row 50000 nan)) = 50000%float /\
  salary_to (with_salaries 50000 (sample_row 50000 nan)) = 50000%float /\
  isna 50000 = false.
Proof.
  apply (@C2_single_bound_fills_both
           (mkDF ObjectDtype ObjectDtype [(0, sample_row 50000 nan)])
           0 (sample_row 50000 nan) 50000%float).
  - simpl. left. reflexivity.
  - right. repeat split; reflexivity.
Defined.

(** Every row that leaves [clean_salaries] has both bounds present. *)
Lemma clean_row_present (ir jr : nat * row) :
  In jr (clean_row ir) ->
  fst jr = fst ir /\
  isna (salary_from (snd jr)) = false /\ isna (salary_to (snd jr)) = false.
Proof.
  unfold clean_row, fillna; simpl.
  destruct (isna (salary_from (snd ir))) eqn:Hf;
    destruct (isna (salary_to (snd ir))) eqn:Ht; simpl;
    rewrite ?Hf, ?Ht; simpl; rewrite ?Hf, ?Ht; simpl;
    try (intros [<- | []]; simpl; auto); try contradiction.
Qed.

Lemma clean_row_both_absent (i : nat) (r : row) :
  isna (salary_from r) = true -> isna (salary_to r) = true ->
  clean_row (i, r) = [].
Proof.
  intros Hf Ht. unfold clean_row, fillna.
  cbn [fst snd salary_from salary_to set_salary_from set_salary_to].
  rewrite Hf, Ht, Ht. reflexivity.
Qed.

(** C5. A row with both salary bounds absent is not in the table
    [clean_salaries] returns (its index label is gone, the labels being
    distinct as in a frame read from a file), and every row of the returned
    table has a salary bound that is not null. *)
Theorem C5_absent_rows_dropped (df : DataFrame) :
  (forall i r,
      NoDup (map fst (rows df)) ->
      In (i, r) (rows df) ->
      isna (salary_from r) = true -> isna (salary_to r) = true ->
      ~ In i (map fst (rows (clean_salaries df)))) /\
  (forall i r,
      In (i, r) (rows (clean_salaries df)) ->
      isna (salary_from r) = false \/ isna (salary_to r) = false).
Proof.
  split.
  - intros i r Hnd Hin Hf Ht Hout.
    rewrite clean_salaries_rowwise in Hout.
    apply in_map_iff in Hout. destruct Hout as [[j r'] [Hj Hin']]. simpl in Hj; subst j.
    apply in_flat_map in Hin'. destruct Hin' as [[j r0] [Hin0 Hc]].
    destruct (clean_row_present _ _ Hc) as [Hij _]. simpl in Hij; subst j.
    assert (r0 = r) as ->.
    { clear Hc Hf Ht. induction (rows df) as [|[a b] l IH]; [contradiction|].
      simpl in Hnd. inversion Hnd as [|? ? Hnot Hnd']; subst.
      destruct Hin as [E|Hin], Hin0 as [E0|Hin0].
      - congruence.
      - inversion E; subst. exfalso. apply Hnot.
        apply in_map_iff. exists (i, r0). auto.
      - inversion E0; subst. exfalso. apply Hnot.
        apply in_map_iff. exists (i, r). auto.
      - apply IH; assumption. }
    rewrite (clean_row_both_absent i r Hf Ht) in Hc. exact Hc.
  - intros i r Hin. rewrite clean_salaries_rowwise in Hin.
    apply in_flat_map in Hin. destruct Hin as [ir [_ Hc]].
    destruct (clean_row_present _ _ Hc) as (_ & Hf & _). left. exact Hf.
Qed.

Lemma C5_witness :
  ~ In 1 (map fst (rows (clean_salaries
        (mkDF ObjectDtype ObjectDtype
              [(0, sample_row 50000 nan); (1, sample_row nan nan)])))).
Proof.
  apply (proj1 (C5_absent_rows_dropped
                  (mkDF ObjectDtype ObjectDtype
                        [(0, sample_row 50000 nan); (1, sample_row nan nan)]))
               1 (sample_row nan nan)).
  - simpl. repeat constructor; simpl; intuition discriminate.
  - simpl. right. left. reflexivity.
  - reflexivity.
  - reflexivity.
Defined.

(** ** Floating-point facts: a missing value is NaN and NaN spreads *)

Lemma isna_nan (x : float) : isna x = true -> x = nan.
Proof.
  unfold isna, is_nan. rewrite eqb_spec. intro H.
  apply Prim2SF_inj. change (Prim2SF nan) with S754_nan.
  destruct (Prim2SF x) as [s| s| |s m e]; try reflexivity; exfalso.
  - destruct s; discriminate.
  - destruct s; discriminate.
  - unfold SFeqb, SFcompare in H. destruct s.
    + rewrite Z.compare_refl, Pos.compare_cont_refl in H. discriminate.
    + rewrite Z.compare_refl, Pos.compare_cont_refl in H. discriminate.
Qed.

Lemma add_nan_l (x : float) : (nan + x)%float = nan.
Proof.
  apply Prim2SF_inj. rewrite add_spec. change (Prim2SF nan) with S754_nan.
  reflexivity.
Qed.

Lemma add_nan_r (x : float) : (x + nan)%float = nan.
Proof.
  apply Prim2SF_inj. rewrite add_spec. change (Prim2SF nan) with S754_nan.
  unfold SF64add, SFadd. destruct (Prim2SF x); reflexivity.
Qed.

Lemma mul_nan_l (x : float) : (nan * x)%float = nan.
Proof.
  apply Prim2SF_inj. rewrite mul_spec. change (Prim2SF nan) with S754_nan.
  reflexivity.
Qed.

Lemma half_sum_one_missing (a b : float) :
  isna a = true \/ isna b = true -> ((a + b) / 2)%float = nan.
Proof.
  intros [H | H]; apply isna_nan in H; subst.
  - rewrite add_nan_l. reflexivity.
  - rewrite add_nan_r. reflexivity.
Qed.

Lemma spec_average_complete (r : row) :
  complete r ->
  spec_average (salary_from r) (salary_to r)
  = ((salary_from r + salary_to r) / 2)%float.
Proof. intros [Hf Ht]. unfold spec_average. rewrite Hf, Ht. reflexivity. Qed.

Lemma complete_has_bound (r : row) : complete r -> no_bound r = false.
Proof. intros [Hf _]. unfold no_bound. rewrite Hf. reflexivity. Qed.

(** ** The salary calculator *)

Lemma float_mul_multiplier (x : float) (v : pyval) (m : float) :
  multiplier v = Some m -> float_mul x v = Ok (x * m)%float.
Proof.
  destruct v; simpl; try discriminate.
  - intros [= <-]. reflexivity.
  - intros ->. reflexivity.
  - intros [= <-]. reflexivity.
Qed.

Lemma rates_get_absent (rates : dict) (code : option pystr) :
  has_key rates code = false -> rates_get rates code = PInt 1.
Proof.
  unfold has_key, rates_get. destruct code as [c|]; [|reflexivity].
  destruct (dict_lookup rates c); [discriminate | reflexivity].
Qed.

Lemma rates_get_present (rates : dict) (c : pystr) (v : pyval) :
  dict_lookup rates c = Some v -> rates_get rates (Some c) = v.
Proof. unfold rates_get. intros ->. reflexivity. Qed.

Lemma calculate_salary_present (r : row) (rates : dict) (m : float) :
  no_bound r = false ->
  multiplier (rates_get rates (salary_currency r)) = Some m ->
  calculate_salary r rates
  = Ok (Some ((salary_from r + salary_to r) / 2 * m)%float).
Proof.
  unfold no_bound, calculate_salary. intros -> Hm.
  rewrite (float_mul_multiplier _ _ Hm). reflexivity.
Qed.

(** C1, as stated, fails on the row of the scenario before it is
    normalised: the lower bound 50000 is present, the upper one missing,
    the code RUR has the entry 1.  The average of the bounds present is
    50000 and the salary would be 50000; the calculator returns NaN, a
    missing value. *)
Lemma C1_counterexample :
  no_bound (sample_row 50000 nan) = false /\
  salary_currency (sample_row 50000 nan) = Some (u "RUR") /\
  dict_lookup fallback_rates (u "RUR") = Some (PInt 1) /\
  multiplier (PInt 1) = Some 1%float /\
  (spec_average (salary_from (sample_row 50000 nan))
                (salary_to (sample_row 50000 nan)) * 1)%float = 50000%float /\
  calculate_salary (sample_row 50000 nan) fallback_rates = Ok (Some nan) /\
  calculate_salary (sample_row 50000 nan) fallback_rates
  <> Ok (Some (spec_average (salary_from (sample_row 50000 nan))
                            (salary_to (sample_row 50000 nan)) * 1)%float).
Proof.
  repeat split; try (vm_compute; reflexivity).
  intro H.
  apply (f_equal (fun x => match x with
                           | Ok (Some s) => isna s
                           | _ => false
                           end)) in H.
  vm_compute in H. discriminate H.
Qed.

Lemma calculate_salary_absent_code (r : row) (rates : dict) :
  has_key rates (salary_currency r) = false ->
  exists s, calculate_salary r rates = Ok s.
Proof.
  intro Habs. unfold calculate_salary.
  destruct (isna (salary_from r) && isna (salary_to r)); [eexists; reflexivity|].
  rewrite (rates_get_absent rates _ Habs). eexists. reflexivity.
Qed.

(** C1, amended. For a row with both salary bounds present the calculator
    returns the average of the two bounds times the multiplier of the
    entry the rate table has for the row's currency code (the entry being
    a number); for a code that is not in the table, a missing code
    included, it returns the average times 1; and for such a code it
    raises no exception on any row. *)
Theorem C1_salary_is_average_times_entry (r : row) (rates : dict) :
  (complete r ->
   forall (c : pystr) (v : pyval) (m : float),
     salary_currency r = Some c ->
     dict_lookup rates c = Some v ->
     multiplier v = Some m ->
     calculate_salary r rates
     = Ok (Some (spec_average (salary_from r) (salary_to r) * m)%float)) /\
  (complete r ->
   has_key rates (salary_currency r) = false ->
   calculate_salary r rates
   = Ok (Some (spec_average (salary_from r) (salary_to r) * 1)%float)) /\
  (has_key rates (salary_currency r) = false ->
   exists s, calculate_salary r rates = Ok s).
Proof.
  split; [|split].
  - intros Hc c v m Hcode Hentry Hm. rewrite (spec_average_complete Hc).
    apply calculate_salary_present; [exact (complete_has_bound Hc)|].
    rewrite Hcode, (rates_get_present _ _ Hentry). exact Hm.
  - intros Hc Habs. rewrite (spec_average_complete Hc).
    apply calculate_salary_present; [exact (complete_has_bound Hc)|].
    rewrite (rates_get_absent rates _ Habs). reflexivity.
  - apply calculate_salary_absent_code.
Qed.

Lemma C1_witness :
  calculate_salary (with_currency (Some (u "USD")) (sample_row 1000 2000)) fallback_rates
  = Ok (Some 135000%float) /\
  calculate_salary (with_currency (Some (u "GBP")) (sample_row 1000 2000)) fallback_rates
  = Ok (Some 1500%float).
Proof.
  assert (Hc : forall code, complete (with_currency code (sample_row 1000 2000))).
  { intro code. split; vm_compute; reflexivity. }
  split.
  - assert (Hentry : dict_lookup fallback_rates (u "USD") = Some (PInt 90))
      by (vm_compute; reflexivity).
    assert (Hm : multiplier (PInt 90) = Some 90%float) by (vm_compute; reflexivity).
    exact (proj1 (@C1_salary_is_average_times_entry
                    (with_currency (Some (u "USD")) (sample_row 1000 2000))
                    fallback_rates)
                 (Hc _) (u "USD") (PInt 90) 90%float eq_refl Hentry Hm).
  - assert (Habs : has_key fallback_rates (Some (u "GBP")) = false)
      by (vm_compute; reflexivity).
    exact (proj1 (proj2 (@C1_salary_is_average_times_entry
                           (with_currency (Some (u "GBP")) (sample_row 1000 2000))
                           fallback_rates))
                 (Hc _) Habs).
Defined.

(** The calculator on rows of the scenario: a known code, a code the
    table does not have, a missing code, and a row that was not normalised. *)
Example calculate_salary_rur :
  calculate_salary (sample_row 50000 50000) fallback_rates = Ok (Some 50000%float).
Proof. reflexivity. Qed.

Example calculate_salary_usd :
  calculate_salary (with_currency (Some (u "USD")) (sample_row 1000 2000)) fallback_rates
  = Ok (Some 135000%float).
Proof. reflexivity. Qed.

Example calculate_salary_unknown_code :
  calculate_salary (with_currency (Some (u "GBP")) (sample_row 1000 2000)) fallback_rates
  = Ok (Some 1500%float).
Proof. reflexivity. Qed.

Example calculate_salary_missing_code :
  calculate_salary (with_currency None (sample_row 1000 2000)) fallback_rates
  = Ok (Some 1500%float).
Proof. reflexivity. Qed.

(** On a row that was not normalised, one bound missing, the average is
    NaN and so is the salary. *)
Lemma calculate_salary_one_missing (r : row) (rates : dict) (m : float) :
  no_bound r = false ->
  isna (salary_from r) = true \/ isna (salary_to r) = true ->
  multiplier (rates_get rates (salary_currency r)) = Some m ->
  calculate_salary r rates = Ok (Some nan).
Proof.
  intros Hp Hone Hm.
  rewrite (calculate_salary_present r rates Hp Hm).
  rewrite (half_sum_one_missing _ _ Hone), mul_nan_l. reflexivity.
Qed.

(** ** The currency rate provider *)

Lemma bind_ok {A B : Type} (m : result A) (f : A -> result B) (b : B) :
  bind m f = Ok b -> exists a, m = Ok a /\ f a = Ok b.
Proof. destruct m; simpl; try discriminate. intro H. exists v. auto. Qed.

Lemma getitem_supported (v : pyval) (key : pystr) : getitem v key <> Unsupported.
Proof.
  destruct v; simpl; try discriminate. destruct (dict_lookup d key); discriminate.
Qed.

Lemma valute_value_supported (data : pyval) (code : pystr) :
  valute_value data code <> Unsupported.
Proof.
  unfold valute_value.
  destruct (getitem data (u "Valute")) as [v| |] eqn:E1; simpl; try discriminate.
  - destruct (getitem v code) as [v'| |] eqn:E2; simpl; try discriminate.
    + apply getitem_supported.
    + exfalso. exact (getitem_supported _ _ E2).
  - exfalso. exact (getitem_supported _ _ E1).
Qed.

Lemma truediv_100_supported (v : pyval) : truediv_100 v <> Unsupported.
Proof.
  destruct v; simpl; try discriminate.
  - destruct (int_truediv (int_of_bool b) 100); discriminate.
  - destruct (int_truediv z 100); discriminate.
Qed.

(** The model of the [try] block covers every response. *)
Lemma fetch_rates_supported (h : http_outcome) : fetch_rates h <> Unsupported.
Proof.
  destruct h as [e|e|data]; simpl; try discriminate.
  unfold live_rates.
  destruct (valute_value data (u "USD")) eqn:E1; simpl; try discriminate;
    [|exfalso; exact (valute_value_supported _ _ E1)].
  destruct (valute_value data (u "EUR")) eqn:E2; simpl; try discriminate;
    [|exfalso; exact (valute_value_supported _ _ E2)].
  destruct (valute_value data (u "KZT")) eqn:E3; simpl; try discriminate;
    [|exfalso; exact (valute_value_supported _ _ E3)].
  destruct (truediv_100 v1) eqn:E4; simpl; try discriminate.
  exfalso; exact (truediv_100_supported _ E4).
Qed.

(** The table of the live path: RUR first, fixed at 1. *)
Lemma live_rates_shape (data : pyval) (rates : dict) :
  live_rates data = Ok rates ->
  exists usd eur kzt,
    rates = [ (u "RUR", PInt 1); (u "USD", usd); (u "EUR", eur); (u "KZT", PFloat kzt) ].
Proof.
  unfold live_rates. intro H.
  apply bind_ok in H. destruct H as (usd & _ & H).
  apply bind_ok in H. destruct H as (eur & _ & H).
  apply bind_ok in H. destruct H as (kzt & _ & H).
  apply bind_ok in H. destruct H as (k & _ & H).
  injection H as <-. exists usd, eur, k. reflexivity.
Qed.

(** [get_currency_rates] always returns a table: nothing is raised past
    it. *)
Lemma get_currency_rates_returns (h : http_outcome) :
  exists t rates, get_currency_rates h = (t, Ok rates).
Proof.
  unfold get_currency_rates.
  destruct (fetch_rates h) as [rates|e|] eqn:E.
  - eauto.
  - eauto.
  - exfalso. exact (fetch_rates_supported h E).
Qed.

(** The failures the specification lists, in the model: the request
    fails, the body is not JSON, a key is missing, the KZT value is not a
    number. *)
Example fetch_network_failure (msg : pystr) :
  fetch_rates (RequestFails (IOError msg)) = Raise (IOError msg).
Proof. reflexivity. Qed.

Example fetch_malformed_json (msg : pystr) :
  fetch_rates (BodyNotJson (IOError msg)) = Raise (IOError msg).
Proof. reflexivity. Qed.

Example fetch_missing_valute :
  fetch_rates (Body (PDict [(u "Date", PStr (u "2024-01-01"))]))
  = Raise (KeyError (u "Valute")).
Proof. reflexivity. Qed.

Example fetch_missing_currency :
  fetch_rates (Body (PDict [(u "Valute", PDict [(u "USD", PDict [(u "Value", PFloat 90.5)])])]))
  = Raise (KeyError (u "EUR")).
Proof. reflexivity. Qed.

Example fetch_kzt_not_a_number :
  fetch_rates (Body (valute_of (PFloat 90.5) (PFloat 99.25) (PStr (u "18.5"))))
  = Raise TypeError.
Proof. reflexivity. Qed.

Example fetch_live :
  fetch_rates (Body (valute_of (PFloat 90.5) (PFloat 99.25) (PInt 18)))
  = Ok [ (u "RUR", PInt 1); (u "USD", PFloat 90.5); (u "EUR", PFloat 99.25);
         (u "KZT", PFloat 0.18) ].
Proof. reflexivity. Qed.

(** C3. Whenever the fetch raises an exception, whichever it is,
    [get_currency_rates] prints the error and returns the table
    {RUR: 1, USD: 90, EUR: 100, KZT: 0.18}; no exception leaves it. *)
Theorem C3_fetch_failure_returns_fallback (h : http_outcome) (e : exn) :
  fetch_rates h = Raise e ->
  get_currency_rates h
  = ([EvHttpGet; EvPrint (MsgRatesError e)],
     Ok [ (u "RUR", PInt 1); (u "USD", PInt 90); (u "EUR", PInt 100);
          (u "KZT", PFloat 0.18) ]).
Proof.
  intro H. unfold get_currency_rates. rewrite H. reflexivity.
Qed.

Lemma C3_witness :
  get_currency_rates (Body (PDict [(u "Date", PStr (u "2024-01-01"))]))
  = ([EvHttpGet; EvPrint (MsgRatesError (KeyError (u "Valute")))],
     Ok [ (u "RUR", PInt 1); (u "USD", PInt 90); (u "EUR", PInt 100);
          (u "KZT", PFloat 0.18) ]).
Proof.
  apply (@C3_fetch_failure_returns_fallback
           (Body (PDict [(u "Date", PStr (u "2024-01-01"))]))
           (KeyError (u "Valute"))).
  reflexivity.
Defined.

(** C4. On every path of [get_currency_rates], the live one and the
    fallback one, a table is returned and it maps RUR to 1. *)
Theorem C4_reference_currency_is_one (h : http_outcome) :
  exists t rates,
    get_currency_rates h = (t, Ok rates) /\
    dict_lookup rates (u "RUR") = Some (PInt 1).
Proof.
  unfold get_currency_rates.
  destruct (fetch_rates h) as [rates|e|] eqn:E.
  - exists [EvHttpGet], rates. split; [reflexivity|].
    destruct h as [e|e|data]; simpl in E; try discriminate.
    destruct (live_rates_shape _ E) as (usd & eur & kzt & ->). reflexivity.
  - exists [EvHttpGet; EvPrint (MsgRatesError e)], fallback_rates.
    split; reflexivity.
  - exfalso. exact (fetch_rates_supported h E).
Qed.

(** ** The driver: the two early returns *)

(** C9. Whenever reading the file raises an exception, [analyze_vacancies]
    prints the read error and returns: the whole trace of the run is that
    one message, so nothing is normalised, filtered, requested, computed or
    drawn. *)
Theorem C9_read_failure_aborts (w : world) (filename : pystr)
    (keywords : list pystr) (e : exn) :
  read_csv w filename = CsvFails e ->
  analyze_vacancies w filename keywords = ([EvPrint (MsgReadError e)], Ok tt).
Proof.
  intro H. unfold analyze_vacancies. rewrite H. reflexivity.
Qed.

(** C8. Whenever the keyword filter yields an empty table,
    [analyze_vacancies] prints the "no vacancies" message and returns: the
    whole trace of the run is that one message, so no rate is requested, no
    statistic printed and no chart shown. *)
Theorem C8_no_match_reports_and_stops (w : world) (filename : pystr)
    (keywords : list pystr) (rs : list row) (filtered : DataFrame) :
  read_csv w filename = CsvRows rs ->
  keyword_filter (possessive_quantifiers w) keywords (prepared rs) = Ok filtered ->
  rows filtered = [] ->
  analyze_vacancies w filename keywords = ([EvPrint MsgNoVacancies], Ok tt).
Proof.
  intros Hread Hfilter Hempty. unfold analyze_vacancies. rewrite Hread.
  unfold prepared in Hfilter. rewrite Hfilter. unfold lift, io_bind.
  rewrite Hempty. reflexivity.
Qed.

Lemma C9_witness :
  analyze_vacancies
    (constant_world true (CsvFails (IOError (u "No such file or directory")))
                    (RequestFails (IOError (u "unreachable"))))
    (u "vacancies_2024.csv") [u "Продавец"; u "учитель"]
  = ([EvPrint (MsgReadError (IOError (u "No such file or directory")))], Ok tt).
Proof.
  apply (@C9_read_failure_aborts
           (constant_world true (CsvFails (IOError (u "No such file or directory")))
                           (RequestFails (IOError (u "unreachable"))))
           (u "vacancies_2024.csv") [u "Продавец"; u "учитель"]
           (IOError (u "No such file or directory"))).
  reflexivity.
Defined.

Lemma C8_witness :
  analyze_vacancies
    (constant_world true (CsvRows [sample_row 50000 nan])
                    (RequestFails (IOError (u "unreachable"))))
    (u "vacancies_2024.csv") [u "учитель"]
  = ([EvPrint MsgNoVacancies], Ok tt).
Proof.
  apply (@C8_no_match_reports_and_stops
           (constant_world true (CsvRows [sample_row 50000 nan])
                           (RequestFails (IOError (u "unreachable"))))
           (u "vacancies_2024.csv") [u "учитель"] [sample_row 50000 nan]
           (mkDF ObjectDtype ObjectDtype [])).
  - reflexivity.
  - vm_compute. reflexivity.
  - reflexivity.
Defined.

(** The end-to-end scenario of the specification: one vacancy, matched by
    the keyword; the rates endpoint is out of reach.  One request, its error
    message, the three lines of the report, the three charts.  (The last
    letter of the only skill is the conjunction the splitter cuts at.) *)
Example analyze_end_to_end :
  analyze_vacancies
    (constant_world true (CsvRows [sample_row 50000 nan])
                    (RequestFails (IOError (u "unreachable"))))
    (u "vacancies_2024.csv") [u "Продавец"]
  = ([ EvHttpGet;
       EvPrint (MsgRatesError (IOError (u "unreachable")));
       EvPrint (MsgFound 1 [Some 2023%Z]);
       EvPrint (MsgMean [50000%float]);
       EvPrint (MsgMedian [50000%float]);
       EvShow (CitiesChart 2023 [Some (u "Москва")] 10);
       EvShow (SalariesChart [(Some 2023%Z, 50000%float)]);
       EvShow (SkillsChart [Some (u "продаж"); Some []] 15) ],
     Ok tt).
Proof. vm_compute. reflexivity. Qed.

(** ** The skills splitter *)

(** C7. The skills chain of [plot_skills] (lower-casing, splitting on a
    comma, the conjunction or a slash with the white space around them,
    one row per piece, trimming), applied to the cell
    "Python, Java и SQL/Git", yields the four skills python, java, sql, git
    in this order, under either version of the [re] module. *)
Theorem C7_skills_split :
  forall possessive : bool,
    skills_of possessive ObjectDtype [Some (u "Python, Java и SQL/Git")]
    = Ok [Some (u "python"); Some (u "java"); Some (u "sql"); Some (u "git")].
Proof. intros [|]; vm_compute; reflexivity. Qed.

(** The conjunction is not required to stand alone as a word: the
    letter splits a skill that contains it. *)
Example skills_split_inside_word :
  skills_of true ObjectDtype [Some (u "Аналитика, Excel")]
  = Ok [Some (u "анал"); Some (u "т"); Some (u "ка"); Some (u "excel")].
Proof. vm_compute. reflexivity. Qed.

(** ** The keyword filter *)

Lemma select_map_filter {A : Type} (f : A -> bool) (l : list A) :
  select l (map f l) = filter f l.
Proof.
  induction l as [|a l IH]; simpl; [reflexivity|].
  rewrite IH. reflexivity.
Qed.

(** The filter, row by row: a row stays when the compiled pattern is found
    in its title. *)
Lemma keyword_filter_rowwise (possessive : bool) (keywords : list pystr)
    (df : DataFrame) (r : regex) :
  name_dtype df = ObjectDtype ->
  re_compile possessive (join (u "|") keywords) = Ok r ->
  keyword_filter possessive keywords df
  = Ok (with_rows df (filter (fun ir => title_matches r (name (snd ir))) (rows df))).
Proof.
  intros Hd Hr. unfold keyword_filter, str_contains. rewrite Hd, Hr. simpl.
  rewrite map_map.
  rewrite <- (select_map_filter (fun ir => title_matches r (name (snd ir)))).
  reflexivity.
Qed.

(** *** Keywords without special characters *)

Lemma special_tests (c : N) :
  special c = false ->
  N.eqb c 46 = false /\ N.eqb c 92 = false /\ N.eqb c 91 = false /\
  N.eqb c 123 = false /\ N.eqb c 40 = false /\ N.eqb c 41 = false /\
  N.eqb c 42 = false /\ N.eqb c 43 = false /\ N.eqb c 63 = false /\
  N.eqb c 94 = false /\ N.eqb c 36 = false /\ N.eqb c 124 = false.
Proof.
  unfold special. cbn [existsb]. intro H.
  repeat (apply orb_false_elim in H; destruct H as [? H]).
  repeat split; assumption.
Qed.

Lemma parse_loop_plain_char (possessive : bool) (c : N) (s : pystr)
    (f : frame) (stack : list frame) :
  special c = false ->
  parse_loop possessive (c :: s) f stack
  = parse_loop possessive s (push_item (Lit c) f) stack.
Proof.
  intro H. apply special_tests in H.
  destruct H as (H46 & H92 & H91 & H123 & H40 & H41 & H42 & H43 & H63 & H94 & H36 & H124).
  cbn [parse_loop]. unfold quantifier.
  rewrite H92, H91, H123, H46, H94, H36, H124, H40, H41, H42, H43, H63.
  reflexivity.
Qed.

Lemma parse_loop_plain (possessive : bool) (s rest : pystr) (f : frame)
    (stack : list frame) :
  plain s = true ->
  parse_loop possessive (s ++ rest) f stack
  = parse_loop possessive rest
      (mkFrame (f_capture f) (f_alts f) (rev (map Lit s) ++ f_items f)) stack.
Proof.
  revert f. induction s as [|c s IH]; intros f Hp.
  - destruct f; reflexivity.
  - simpl in Hp. apply andb_prop in Hp. destruct Hp as [Hc Hs].
    apply negb_true_iff in Hc.
    cbn [app]. rewrite parse_loop_plain_char by assumption. rewrite IH by assumption.
    unfold push_item. cbn [f_capture f_alts f_items map rev].
    rewrite <- app_assoc. reflexivity.
Qed.

Lemma finish_seq_app (items : list regex) (acc : regex) :
  fold_left (fun acc it => Cat it acc) items acc
  = fold_right (fun it acc => Cat it acc) acc (rev items).
Proof.
  revert acc. induction items as [|it items IH]; intro acc; simpl; [reflexivity|].
  rewrite IH, fold_right_app. reflexivity.
Qed.

Lemma finish_seq_lits (s : pystr) : finish_seq (rev (map Lit s)) = lits s.
Proof.
  unfold finish_seq, lits. rewrite finish_seq_app, rev_involutive.
  induction s as [|c s IH]; simpl; [reflexivity|]. rewrite IH. reflexivity.
Qed.

Lemma parse_loop_alternation (possessive : bool) (ks : list pystr) :
  forall (k : pystr) (capture : bool) (alts : list regex),
    forallb plain (k :: ks) = true ->
    parse_loop possessive (join (u "|") (k :: ks)) (mkFrame capture alts []) []
    = POk (fold_left (fun acc a => Alt a acc) alts (alternation (k :: ks))).
Proof.
  induction ks as [|k' ks IH]; intros k capture alts Hp.
  - cbn [forallb] in Hp. apply andb_prop in Hp. destruct Hp as [Hk _].
    cbn [join]. rewrite <- (app_nil_r k) at 1.
    rewrite parse_loop_plain by assumption. cbn [parse_loop].
    unfold finish_frame. cbn [f_alts f_items f_capture].
    rewrite app_nil_r, finish_seq_lits. reflexivity.
  - cbn [forallb] in Hp. apply andb_prop in Hp. destruct Hp as [Hk Hrest].
    change (join (u "|") (k :: k' :: ks))
      with (k ++ 124%N :: join (u "|") (k' :: ks)).
    rewrite parse_loop_plain by assumption. cbn [f_capture f_alts f_items].
    rewrite app_nil_r.
    change (parse_loop possessive (124%N :: join (u "|") (k' :: ks))
              (mkFrame capture alts (rev (map Lit k))) [])
      with (parse_loop possessive (join (u "|") (k' :: ks))
              (next_alt (mkFrame capture alts (rev (map Lit k)))) []).
    unfold next_alt. cbn [f_capture f_alts f_items].
    rewrite IH by assumption. rewrite finish_seq_lits. reflexivity.
Qed.

(** The joined plain keywords compile to their alternation. *)
Lemma re_compile_plain (possessive : bool) (keywords : list pystr) :
  forallb plain keywords = true ->
  re_compile possessive (join (u "|") keywords) = Ok (alternation keywords).
Proof.
  intro Hp. unfold re_compile, parse. destruct keywords as [|k ks].
  - reflexivity.
  - rewrite parse_loop_alternation by assumption. reflexivity.
Qed.

Lemma run_lits (k : pystr) :
  forall (c : cursor) (rest : cont),
    (forall c', rest c' <> None) ->
    is_some (run true (lits k) c rest)
    = prefixb (str_lower k) (str_lower (snd c)).
Proof.
  induction k as [|x k IH]; intros [pos s] rest Hrest.
  - cbn. destruct (rest (pos, s)) eqn:E; [reflexivity|].
    exfalso. exact (Hrest _ E).
  - cbn [lits fold_right run]. unfold one_char. cbn [fst snd].
    destruct s as [|ch s]; [reflexivity|].
    cbn [str_lower map prefixb]. unfold chr_eq.
    rewrite (N.eqb_sym (lower x)).
    destruct (N.eqb (lower ch) (lower x)); [|reflexivity].
    cbn [andb]. apply (IH (S pos, s) rest Hrest).
Qed.

Lemma run_alternation (keywords : list pystr) :
  keywords <> [] ->
  forall (c : cursor) (rest : cont),
    (forall c', rest c' <> None) ->
    is_some (run true (alternation keywords) c rest)
    = existsb (fun k => prefixb (str_lower k) (str_lower (snd c))) keywords.
Proof.
  induction keywords as [|k ks IH]; intros Hne c rest Hrest; [congruence|].
  destruct ks as [|k' ks].
  - cbn [alternation existsb]. rewrite orb_false_r. apply run_lits. exact Hrest.
  - change (alternation (k :: k' :: ks)) with (Alt (lits k) (alternation (k' :: ks))).
    cbn [run]. cbn [existsb] in *.
    rewrite <- (run_lits k c rest Hrest).
    rewrite <- (IH ltac:(discriminate) c rest Hrest).
    destruct (run true (lits k) c rest); reflexivity.
Qed.

Lemma existsb_orb {A : Type} (f g : A -> bool) (l : list A) :
  existsb (fun x => f x || g x) l = existsb f l || existsb g l.
Proof.
  induction l as [|a l IH]; simpl; [reflexivity|].
  rewrite IH. destruct (f a), (g a), (existsb f l); reflexivity.
Qed.

Lemma existsb_pointwise {A : Type} (f g : A -> bool) (l : list A) :
  (forall x, f x = g x) -> existsb f l = existsb g l.
Proof.
  intro H. induction l as [|a l IH]; simpl; [reflexivity|].
  rewrite H, IH. reflexivity.
Qed.

Lemma accept_false_total (pos : nat) (c' : cursor) : accept false pos c' <> None.
Proof. discriminate. Qed.

Lemma search_from_step (r : regex) (pos : nat) (s : pystr) :
  is_some (search_from true r false pos s)
  = is_some (run true r (pos, s) (accept false pos))
    || match s with
       | [] => false
       | _ :: s' => is_some (search_from true r false (S pos) s')
       end.
Proof.
  destruct s as [|ch s]; cbn [search_from];
    destruct (run true r _ (accept false pos)); reflexivity.
Qed.

Lemma search_from_alternation (keywords : list pystr) (s : pystr) :
  keywords <> [] ->
  forall pos,
    is_some (search_from true (alternation keywords) false pos s)
    = existsb (fun k => contains (str_lower s) (str_lower k)) keywords.
Proof.
  intro Hne. induction s as [|ch s IH]; intro pos; rewrite search_from_step;
    rewrite (run_alternation Hne _ _ (@accept_false_total pos)); cbn [snd].
  - rewrite orb_false_r. apply existsb_pointwise. intro k.
    cbn [str_lower map contains]. rewrite orb_false_r. reflexivity.
  - rewrite IH. cbn [str_lower map contains]. rewrite existsb_orb. reflexivity.
Qed.

(** The alternation of plain keywords is found in a title exactly when
    one of the keywords, lower-cased, is part of the lower-cased title. *)
Lemma search_alternation (keywords : list pystr) (title : pystr) :
  search true (alternation keywords) title = some_keyword_in keywords title.
Proof.
  destruct keywords as [|k ks].
  - destruct title; reflexivity.
  - unfold search, some_keyword_in.
    rewrite <- (@search_from_alternation (k :: ks) title ltac:(discriminate) 0).
    destruct (search_from true (alternation (k :: ks)) false 0 title); reflexivity.
Qed.

Lemma filter_pointwise {A : Type} (f g : A -> bool) (l : list A) :
  (forall x, f x = g x) -> filter f l = filter g l.
Proof.
  intro H. induction l as [|a l IH]; simpl; [reflexivity|].
  rewrite H, IH. reflexivity.
Qed.

(** With plain keywords the filter keeps the rows whose title contains one
    of the keywords, letter case aside. *)
Lemma keyword_filter_plain (possessive : bool) (keywords : list pystr)
    (df : DataFrame) :
  name_dtype df = ObjectDtype ->
  forallb plain keywords = true ->
  keyword_filter possessive keywords df
  = Ok (with_rows df (filter (fun ir => title_has_keyword keywords (name (snd ir)))
                             (rows df))).
Proof.
  intros Hd Hp.
  rewrite (@keyword_filter_rowwise possessive keywords df (alternation keywords) Hd
             (re_compile_plain possessive keywords Hp)).
  f_equal. f_equal. apply filter_pointwise. intros [i r].
  unfold title_matches, title_has_keyword. cbn [snd].
  destruct (name r) as [title|]; [|reflexivity].
  apply search_alternation.
Qed.



(** ** Keywords are patterns *)

Lemma keyword_filter_keeps (possessive : bool) (keywords : list pystr)
    (df : DataFrame) (r : regex) (ir : nat * row) :
  name_dtype df = ObjectDtype ->
  re_compile possessive (join (u "|") keywords) = Ok r ->
  In ir (rows df) ->
  title_matches r (name (snd ir)) = true ->
  exists filtered,
    keyword_filter possessive keywords df = Ok filtered /\ In ir (rows filtered).
Proof.
  intros Hd Hr Hin Hm.
  exists (with_rows df (filter (fun ir => title_matches r (name (snd ir))) (rows df))).
  split; [apply keyword_filter_rowwise; assumption|].
  cbn [rows with_rows]. apply filter_In. split; assumption.
Qed.

(** A pattern that does not compile ends the run with the exception; so
    does a title column without text.  Nothing is printed. *)
Lemma analyze_vacancies_bad_pattern (w : world) (filename : pystr)
    (keywords : list pystr) (rs : list row) :
  read_csv w filename = CsvRows rs ->
  re_compile (possessive_quantifiers w) (join (u "|") keywords) = Raise ReError ->
  exists e, analyze_vacancies w filename keywords = ([], Raise e).
Proof.
  intros Hread Hre. unfold analyze_vacancies. rewrite Hread.
  unfold keyword_filter, str_contains.
  destruct (name_dtype (dropna_required (clean_salaries (frame_of rs)))).
  - exists ReError. cbn [str_accessor bind]. rewrite Hre. reflexivity.
  - exists AttributeError. reflexivity.
  - exists AttributeError. reflexivity.
Qed.

(** C10. The keywords reach the matcher as they are, joined with "|", and
    are read as patterns.  The keyword "C++": an interpreter with possessive
    quantifiers keeps a title such as "Senior C developer", which does not
    contain "C++"; an earlier one cannot compile the pattern, and the run
    ends with the exception, nothing printed.  The keyword ".NET", under
    either, keeps the title "Internet marketing", which does not contain
    ".NET" in any letter case. *)
Theorem C10_keywords_are_patterns :
  (forall (df : DataFrame) (ir : nat * row),
      name_dtype df = ObjectDtype ->
      In ir (rows df) ->
      name (snd ir) = Some (u "Senior C developer") ->
      exists filtered,
        keyword_filter true [u "C++"] df = Ok filtered /\ In ir (rows filtered)) /\
  contains (str_lower (u "Senior C developer")) (str_lower (u "C++")) = false /\
  (forall (w : world) (filename : pystr) (rs : list row),
      possessive_quantifiers w = false ->
      read_csv w filename = CsvRows rs ->
      exists e, analyze_vacancies w filename [u "C++"] = ([], Raise e)) /\
  (forall (possessive : bool) (df : DataFrame) (ir : nat * row),
      name_dtype df = ObjectDtype ->
      In ir (rows df) ->
      name (snd ir) = Some (u "Internet marketing") ->
      exists filtered,
        keyword_filter possessive [u ".NET"] df = Ok filtered /\
        In ir (rows filtered)) /\
  contains (str_lower (u "Internet marketing")) (str_lower (u ".NET")) = false.
Proof.
  split; [|split; [|split; [|split]]].
  - intros df ir Hd Hin Hname.
    apply (@keyword_filter_keeps true [u "C++"] df
             (Cat (Rep Possessive 1 None (Lit 67)) Eps) ir Hd); [reflexivity|assumption|].
    rewrite Hname. vm_compute. reflexivity.
  - vm_compute. reflexivity.
  - intros w filename rs Hp Hread.
    apply (analyze_vacancies_bad_pattern w filename [u "C++"] Hread).
    rewrite Hp. vm_compute. reflexivity.
  - intros possessive df ir Hd Hin Hname.
    apply (@keyword_filter_keeps possessive [u ".NET"] df
             (Cat AnyChar (Cat (Lit 78) (Cat (Lit 69) (Cat (Lit 84) Eps)))) ir Hd);
      [destruct possessive; reflexivity|assumption|].
    rewrite Hname. vm_compute. reflexivity.
  - vm_compute. reflexivity.
Qed.

Lemma C10_witness :
  exists e,
    analyze_vacancies
      (constant_world false (CsvRows [sample_row 50000 nan])
                      (RequestFails (IOError (u "unreachable"))))
      (u "vacancies_2024.csv") [u "C++"]
    = ([], Raise e).
Proof.
  apply (proj1 (proj2 (proj2 C10_keywords_are_patterns))
           (constant_world false (CsvRows [sample_row 50000 nan])
                           (RequestFails (IOError (u "unreachable"))))
           (u "vacancies_2024.csv") [sample_row 50000 nan]);
    reflexivity.
Defined.

(** The two runs with the keyword "C++" on the scenario's file with one
    more vacancy. *)
Example analyze_cpp_before_3_11 :
  analyze_vacancies
    (constant_world false
       (CsvRows [with_name (Some (u "Senior C developer")) (sample_row 50000 nan)])
       (RequestFails (IOError (u "unreachable"))))
    (u "vacancies_2024.csv") [u "C++"]
  = ([], Raise ReError).
Proof. vm_compute. reflexivity. Qed.

Example analyze_cpp_from_3_11 :
  fst (analyze_vacancies
         (constant_world true
            (CsvRows [with_name (Some (u "Senior C developer")) (sample_row 50000 nan)])
            (RequestFails (IOError (u "unreachable"))))
         (u "vacancies_2024.csv") [u "C++"])
  = [ EvHttpGet;
      EvPrint (MsgRatesError (IOError (u "unreachable")));
      EvPrint (MsgFound 1 [Some 2023%Z]);
      EvPrint (MsgMean [50000%float]);
      EvPrint (MsgMedian [50000%float]);
      EvShow (CitiesChart 2023 [Some (u "Москва")] 10);
      EvShow (SalariesChart [(Some 2023%Z, 50000%float)]);
      EvShow (SkillsChart [Some (u "продаж"); Some []] 15) ].
Proof. vm_compute. reflexivity. Qed.

(** ** The engine: the fuel of the repetitions is enough *)

Lemma reaches_refl (c : cursor) : reaches c c.
Proof. exists []. split; [reflexivity | simpl; lia]. Qed.

Lemma reaches_trans (c1 c2 c3 : cursor) :
  reaches c1 c2 -> reaches c2 c3 -> reaches c1 c3.
Proof.
  intros (p1 & H1 & P1) (p2 & H2 & P2). exists (p1 ++ p2). split.
  - rewrite H1, H2, app_assoc. reflexivity.
  - rewrite P2, P1, length_app. lia.
Qed.

Lemma reaches_length (c c' : cursor) :
  reaches c c' ->
  List.length (snd c) = (fst c' - fst c) + List.length (snd c') /\ fst c <= fst c'.
Proof.
  intros (p & H & P). rewrite H, length_app, P. lia.
Qed.

Lemma reaches_next (pos : nat) (ch : N) (s : pystr) : reaches (pos, ch :: s) (S pos, s).
Proof. exists [ch]. split; [reflexivity | simpl; lia]. Qed.

Lemma one_char_local (p : N -> bool) : local (one_char p).
Proof.
  intros [pos s] k1 k2 H. unfold one_char. cbn [fst snd].
  destruct s as [|ch s]; [reflexivity|].
  destruct (p ch); [|reflexivity]. apply H. apply reaches_next.
Qed.

Lemma one_char_forward (p : N -> bool) : forward (one_char p).
Proof.
  intros [pos s] k e. unfold one_char. cbn [fst snd].
  destruct s as [|ch s]; [discriminate|].
  destruct (p ch); [|discriminate].
  intro H. exists (S pos, s). split; [apply reaches_next | exact H].
Qed.

Section Loops.
Variable body : matcher.
Hypothesis body_local : local body.
Hypothesis body_forward : forward body.
Variables (lo : nat) (hi : option nat).

Lemma until_max_local (fuel : nat) :
  forall count last, local (until_max body fuel lo hi count last).
Proof.
  induction fuel as [|fuel IH]; intros count last c k1 k2 H; [reflexivity|].
  cbn [until_max].
  assert (Hk : k1 c = k2 c) by (apply H, reaches_refl).
  assert (Hbody : forall count' last',
             body c (fun c' => until_max body fuel lo hi count' last' c' k1)
             = body c (fun c' => until_max body fuel lo hi count' last' c' k2)).
  { intros count' last'. apply body_local. intros c' Hc'. apply IH.
    intros c'' Hc''. apply H. exact (reaches_trans Hc' Hc''). }
  rewrite !Hbody, Hk. reflexivity.
Qed.

Lemma until_min_local (fuel : nat) :
  forall count last, local (until_min body fuel lo hi count last).
Proof.
  induction fuel as [|fuel IH]; intros count last c k1 k2 H; [reflexivity|].
  cbn [until_min].
  assert (Hk : k1 c = k2 c) by (apply H, reaches_refl).
  assert (Hbody : forall count' last',
             body c (fun c' => until_min body fuel lo hi count' last' c' k1)
             = body c (fun c' => until_min body fuel lo hi count' last' c' k2)).
  { intros count' last'. apply body_local. intros c' Hc'. apply IH.
    intros c'' Hc''. apply H. exact (reaches_trans Hc' Hc''). }
  rewrite !Hbody, Hk. reflexivity.
Qed.

Lemma until_max_forward (fuel : nat) :
  forall count last, forward (until_max body fuel lo hi count last).
Proof.
  induction fuel as [|fuel IH]; intros count last c k e; [discriminate|].
  cbn [until_max].
  assert (Hbody : forall count' last',
             body c (fun c' => until_max body fuel lo hi count' last' c' k) = Some e ->
             exists c', reaches c c' /\ k c' = Some e).
  { intros count' last' H. apply body_forward in H. destruct H as (c1 & R1 & H).
    apply IH in H. destruct H as (c2 & R2 & H).
    exists c2. split; [exact (reaches_trans R1 R2) | exact H]. }
  destruct (Nat.ltb count lo); [apply Hbody|].
  destruct (below count hi && negb (same_place last c)).
  - destruct (body c _) eqn:E.
    + intros [= <-]. exact (Hbody _ _ E).
    + intro H. exists c. split; [apply reaches_refl | exact H].
  - intro H. exists c. split; [apply reaches_refl | exact H].
Qed.

Lemma until_min_forward (fuel : nat) :
  forall count last, forward (until_min body fuel lo hi count last).
Proof.
  induction fuel as [|fuel IH]; intros count last c k e; [discriminate|].
  cbn [until_min].
  assert (Hbody : forall count' last',
             body c (fun c' => until_min body fuel lo hi count' last' c' k) = Some e ->
             exists c', reaches c c' /\ k c' = Some e).
  { intros count' last' H. apply body_forward in H. destruct H as (c1 & R1 & H).
    apply IH in H. destruct H as (c2 & R2 & H).
    exists c2. split; [exact (reaches_trans R1 R2) | exact H]. }
  destruct (Nat.ltb count lo); [apply Hbody|].
  destruct (k c) eqn:E.
  - intros [= <-]. exists c. split; [apply reaches_refl | exact E].
  - destruct (below count hi && negb (same_place last c)); [apply Hbody | discriminate].
Qed.

Lemma possessive_loop_reaches (fuel : nat) :
  forall count last c c',
    possessive_loop body fuel lo hi count last c = Some c' -> reaches c c'.
Proof.
  induction fuel as [|fuel IH]; intros count last c c'; [discriminate|].
  cbn [possessive_loop].
  assert (Hbody : forall count' last' c1,
             body c Some = Some c1 ->
             possessive_loop body fuel lo hi count' last' c1 = Some c' ->
             reaches c c').
  { intros count' last' c1 H1 H2. apply body_forward in H1.
    destruct H1 as (c2 & R & [= ->]). apply IH in H2. exact (reaches_trans R H2). }
  destruct (Nat.ltb count lo).
  - destruct (body c Some) eqn:E; [|discriminate]. apply (Hbody _ _ _ eq_refl).
  - destruct (below count hi && negb (same_place last c)).
    + destruct (body c Some) eqn:E.
      * apply (Hbody _ _ _ eq_refl).
      * intros [= <-]. apply reaches_refl.
    + intros [= <-]. apply reaches_refl.
Qed.

(** The need goes down with every iteration. *)
Lemma need_mandatory (count : nat) (last : option nat) (c c' : cursor) :
  Nat.ltb count lo = true -> reaches c c' ->
  S (need lo (S count) last c') <= need lo count last c.
Proof.
  intros Hlt R. apply reaches_length in R. destruct R as [Hlen _].
  apply Nat.ltb_lt in Hlt. unfold need.
  replace (Nat.ltb count lo) with true by (symmetry; apply Nat.ltb_lt; lia).
  destruct (Nat.ltb (S count) lo) eqn:E.
  - apply Nat.ltb_lt in E. lia.
  - destruct (same_place last c'); lia.
Qed.

Lemma need_optional (count : nat) (last : option nat) (c c' : cursor) :
  Nat.ltb count lo = false -> same_place last c = false -> reaches c c' ->
  S (need lo (S count) (Some (fst c)) c') <= need lo count last c.
Proof.
  intros Hlt Hsame R. apply reaches_length in R. destruct R as [Hlen Hle].
  apply Nat.ltb_ge in Hlt. unfold need.
  replace (Nat.ltb count lo) with false by (symmetry; apply Nat.ltb_ge; lia).
  replace (Nat.ltb (S count) lo) with false by (symmetry; apply Nat.ltb_ge; lia).
  rewrite Hsame. cbn [same_place].
  destruct (Nat.eqb (fst c) (fst c')) eqn:E.
  - lia.
  - apply Nat.eqb_neq in E. lia.
Qed.

Lemma need_positive (count : nat) (last : option nat) (c : cursor) :
  1 <= need lo count last c.
Proof.
  unfold need. destruct (Nat.ltb count lo); [lia|].
  destruct (same_place last c); lia.
Qed.

Lemma until_max_unfold (fuel count : nat) (last : option nat) (c : cursor) (k : cont) :
  until_max body (S fuel) lo hi count last c k
  = if Nat.ltb count lo then
      body c (fun c' => until_max body fuel lo hi (S count) last c' k)
    else if below count hi && negb (same_place last c) then
      match body c (fun c' => until_max body fuel lo hi (S count) (Some (fst c)) c' k) with
      | Some e => Some e
      | None => k c
      end
    else k c.
Proof. reflexivity. Qed.

Lemma until_min_unfold (fuel count : nat) (last : option nat) (c : cursor) (k : cont) :
  until_min body (S fuel) lo hi count last c k
  = if Nat.ltb count lo then
      body c (fun c' => until_min body fuel lo hi (S count) last c' k)
    else
      match k c with
      | Some e => Some e
      | None =>
          if below count hi && negb (same_place last c) then
            body c (fun c' => until_min body fuel lo hi (S count) (Some (fst c)) c' k)
          else None
      end.
Proof. reflexivity. Qed.

Lemma possessive_loop_unfold (fuel count : nat) (last : option nat) (c : cursor) :
  possessive_loop body (S fuel) lo hi count last c
  = if Nat.ltb count lo then
      match body c Some with
      | Some c' => possessive_loop body fuel lo hi (S count) last c'
      | None => None
      end
    else if below count hi && negb (same_place last c) then
      match body c Some with
      | Some c' => possessive_loop body fuel lo hi (S count) (Some (fst c)) c'
      | None => Some c
      end
    else Some c.
Proof. reflexivity. Qed.

Lemma until_max_more_fuel (fuel : nat) :
  forall count last c k,
    need lo count last c <= fuel ->
    until_max body (S fuel) lo hi count last c k
    = until_max body fuel lo hi count last c k.
Proof.
  induction fuel as [|fuel IH]; intros count last c k Hneed.
  - pose proof (need_positive count last c). lia.
  - remember (S fuel) as f1 eqn:Hf1.
    subst f1. rewrite (until_max_unfold (S fuel)), (until_max_unfold fuel).
    destruct (Nat.ltb count lo) eqn:Hlt.
    + apply body_local. intros c' R. apply IH.
      pose proof (need_mandatory count last Hlt R). lia.
    + destruct (same_place last c) eqn:Hsame.
      * rewrite andb_false_r. reflexivity.
      * destruct (below count hi); [|reflexivity]. cbn [andb negb].
        replace (body c (fun c' => until_max body (S fuel) lo hi (S count) (Some (fst c)) c' k))
          with (body c (fun c' => until_max body fuel lo hi (S count) (Some (fst c)) c' k)).
        { reflexivity. }
        apply body_local. intros c' R. symmetry. apply IH.
        pose proof (need_optional count last Hlt Hsame R). lia.
Qed.

Lemma until_min_more_fuel (fuel : nat) :
  forall count last c k,
    need lo count last c <= fuel ->
    until_min body (S fuel) lo hi count last c k
    = until_min body fuel lo hi count last c k.
Proof.
  induction fuel as [|fuel IH]; intros count last c k Hneed.
  - pose proof (need_positive count last c). lia.
  - remember (S fuel) as f1 eqn:Hf1.
    subst f1. rewrite (until_min_unfold (S fuel)), (until_min_unfold fuel).
    destruct (Nat.ltb count lo) eqn:Hlt.
    + apply body_local. intros c' R. apply IH.
      pose proof (need_mandatory count last Hlt R). lia.
    + destruct (k c); [reflexivity|].
      destruct (same_place last c) eqn:Hsame.
      * rewrite andb_false_r. reflexivity.
      * destruct (below count hi); [|reflexivity]. cbn [andb negb].
        apply body_local. intros c' R. apply IH.
        pose proof (need_optional count last Hlt Hsame R). lia.
Qed.

Lemma possessive_loop_more_fuel (fuel : nat) :
  forall count last c,
    need lo count last c <= fuel ->
    possessive_loop body (S fuel) lo hi count last c
    = possessive_loop body fuel lo hi count last c.
Proof.
  induction fuel as [|fuel IH]; intros count last c Hneed.
  - pose proof (need_positive count last c). lia.
  - remember (S fuel) as f1 eqn:Hf1.
    subst f1. rewrite (possessive_loop_unfold (S fuel)), (possessive_loop_unfold fuel).
    destruct (Nat.ltb count lo) eqn:Hlt.
    + destruct (body c Some) as [c1|] eqn:E; [|reflexivity].
      apply body_forward in E. destruct E as (c2 & R & [= ->]).
      apply IH. pose proof (need_mandatory count last Hlt R). lia.
    + destruct (same_place last c) eqn:Hsame.
      * rewrite andb_false_r. reflexivity.
      * destruct (below count hi); [|reflexivity]. cbn [andb negb].
        destruct (body c Some) as [c1|] eqn:E; [|reflexivity].
        apply body_forward in E. destruct E as (c2 & R & [= ->]).
        apply IH. pose proof (need_optional count last Hlt Hsame R). lia.
Qed.

End Loops.

Lemma run_local_forward (ignorecase : bool) (r : regex) :
  local (run ignorecase r) /\ forward (run ignorecase r).
Proof.
  induction r as [| x | | neg | a | r1 [L1 F1] r2 [L2 F2] | r1 [L1 F1] r2 [L2 F2]
                 | m lo hi r [L F] | capture r [L F]].
  - split.
    + intros c k1 k2 H. cbn [run]. apply H, reaches_refl.
    + intros c k e H. exists c. split; [apply reaches_refl | exact H].
  - split; cbn [run]; [apply one_char_local | apply one_char_forward].
  - split; cbn [run]; [apply one_char_local | apply one_char_forward].
  - split; cbn [run]; [apply one_char_local | apply one_char_forward].
  - split.
    + intros c k1 k2 H. cbn [run]. destruct (at_ok a c); [|reflexivity].
      apply H, reaches_refl.
    + intros c k e. cbn [run]. destruct (at_ok a c); [|discriminate].
      intro H. exists c. split; [apply reaches_refl | exact H].
  - split.
    + intros c k1 k2 H. cbn [run]. apply L1. intros c' R. apply L2.
      intros c'' R'. apply H. exact (reaches_trans R R').
    + intros c k e. cbn [run]. intro H.
      apply F1 in H. destruct H as (c1 & R1 & H).
      apply F2 in H. destruct H as (c2 & R2 & H).
      exists c2. split; [exact (reaches_trans R1 R2) | exact H].
  - split.
    + intros c k1 k2 H. cbn [run].
      rewrite (L1 c k1 k2 H), (L2 c k1 k2 H). reflexivity.
    + intros c k e. cbn [run].
      destruct (run ignorecase r1 c k) eqn:E.
      * intros [= <-]. exact (F1 _ _ _ E).
      * apply F2.
  - split.
    + intros c k1 k2 H. cbn [run]. destruct m.
      * apply (until_max_local L); assumption.
      * apply (until_min_local L); assumption.
      * destruct (possessive_loop _ _ _ _ _ _ c) as [c'|] eqn:E; [|reflexivity].
        apply H. exact (possessive_loop_reaches F _ _ _ _ _ _ E).
    + intros c k e. cbn [run]. destruct m.
      * apply (until_max_forward F).
      * apply (until_min_forward F).
      * destruct (possessive_loop _ _ _ _ _ _ c) as [c'|] eqn:E; [|discriminate].
        intro H. exists c'.
        split; [exact (possessive_loop_reaches F _ _ _ _ _ _ E) | exact H].
  - split; cbn [run]; assumption.
Qed.

Lemma need_initial (lo : nat) (c : cursor) : need lo 0 None c <= rep_fuel lo c.
Proof.
  unfold need, rep_fuel. cbn [same_place]. destruct (Nat.ltb 0 lo); lia.
Qed.

(** The fuel [run] gives a repetition is enough: with any more of it the
    repetition does the same.  So the engine never stops for lack of fuel,
    and what it returns is the result of the search it models. *)
Theorem repetition_fuel_enough (ignorecase : bool) (lo : nat) (hi : option nat)
    (r : regex) (c : cursor) (k : cont) (extra : nat) :
  until_max (run ignorecase r) (extra + rep_fuel lo c) lo hi 0 None c k
  = run ignorecase (Rep Greedy lo hi r) c k /\
  until_min (run ignorecase r) (extra + rep_fuel lo c) lo hi 0 None c k
  = run ignorecase (Rep Lazy lo hi r) c k /\
  match possessive_loop (run ignorecase r) (extra + rep_fuel lo c) lo hi 0 None c with
  | Some c' => k c'
  | None => None
  end
  = run ignorecase (Rep Possessive lo hi r) c k.
Proof.
  destruct (run_local_forward ignorecase r) as [L F].
  pose proof (need_initial lo c) as Hneed.
  cbn [run]. induction extra as [|extra (IH1 & IH2 & IH3)].
  - repeat split; reflexivity.
  - cbn [Nat.add]. repeat split.
    + rewrite (until_max_more_fuel L) by lia. exact IH1.
    + rewrite (until_min_more_fuel L) by lia. exact IH2.
    + rewrite (possessive_loop_more_fuel F) by lia. exact IH3.
Qed.

Lemma search_from_unfold (ignorecase : bool) (r : regex) (must_advance : bool)
    (pos : nat) (s : pystr) :
  search_from ignorecase r must_advance pos s
  = match run ignorecase r (pos, s) (accept must_advance pos) with
    | Some e => Some (pos, e)
    | None =>
        match s with
        | [] => None
        | _ :: s' => search_from ignorecase r false (S pos) s'
        end
    end.
Proof. destruct s; reflexivity. Qed.

Lemma accept_reaches (must_advance : bool) (pos : nat) (s : pystr) (c' e : cursor) :
  reaches (pos, s) c' -> accept must_advance pos c' = Some e ->
  reaches (pos, s) e /\ pos <= fst e /\ (must_advance = true -> fst e <> pos).
Proof.
  intros R Hacc. unfold accept in Hacc.
  destruct (must_advance && Nat.eqb (fst c') pos) eqn:Hadv; [discriminate|].
  injection Hacc as <-. pose proof (reaches_length R) as [_ Hle]. cbn [fst] in Hle.
  repeat split; try assumption.
  intros -> Heq. cbn [andb] in Hadv. apply Nat.eqb_neq in Hadv. contradiction.
Qed.

Lemma search_from_reaches (ignorecase : bool) (r : regex) (s : pystr) :
  forall (must_advance : bool) (pos start : nat) (e : cursor),
    search_from ignorecase r must_advance pos s = Some (start, e) ->
    reaches (pos, s) e /\ pos <= start /\ start <= fst e /\
    (must_advance = true -> fst e <> pos).
Proof.
  destruct (run_local_forward ignorecase r) as [_ F].
  induction s as [|ch s IH]; intros must_advance pos start e;
    rewrite search_from_unfold;
    destruct (run _ _ _ _) as [e'|] eqn:E; try discriminate.
  - intros [= <- <-]. apply F in E. destruct E as (c' & R & Hacc).
    destruct (accept_reaches _ R Hacc) as (R' & Hle & Hadv).
    repeat split; try assumption; lia.
  - intros [= <- <-]. apply F in E. destruct E as (c' & R & Hacc).
    destruct (accept_reaches _ R Hacc) as (R' & Hle & Hadv).
    repeat split; try assumption; lia.
  - intro H. apply IH in H. destruct H as (R & Hs & He & _).
    repeat split; try lia.
    exact (reaches_trans (reaches_next pos ch s) R).
Qed.

Lemma split_loop_more_fuel (r : regex) (fuel : nat) :
  forall (must_advance : bool) (pos : nat) (s : pystr),
    split_need must_advance s <= fuel ->
    split_loop (S fuel) r must_advance pos s = split_loop fuel r must_advance pos s.
Proof.
  induction fuel as [|fuel IH]; intros must_advance pos s Hneed.
  - unfold split_need in Hneed. destruct must_advance; lia.
  - change (split_loop (S (S fuel)) r must_advance pos s)
      with (match search_from false r must_advance pos s with
            | None => [s]
            | Some (start, (e, rest)) =>
                firstn (start - pos) s
                  :: split_loop (S fuel) r (Nat.eqb e start) e rest
            end).
    change (split_loop (S fuel) r must_advance pos s)
      with (match search_from false r must_advance pos s with
            | None => [s]
            | Some (start, (e, rest)) =>
                firstn (start - pos) s :: split_loop fuel r (Nat.eqb e start) e rest
            end).
    destruct (search_from false r must_advance pos s) as [[start [e rest]]|] eqn:E;
      [|reflexivity].
    f_equal. apply IH.
    apply search_from_reaches in E. destruct E as (R & Hs & He & Hadv).
    apply reaches_length in R. destruct R as [Hlen _]. cbn [fst snd] in *.
    unfold split_need in *.
    destruct (Nat.eqb e start) eqn:Heq.
    + apply Nat.eqb_eq in Heq. destruct must_advance.
      * specialize (Hadv eq_refl). lia.
      * lia.
    + apply Nat.eqb_neq in Heq. destruct must_advance; lia.
Qed.

(** The rounds [split] gives its loop are enough: with any more of them it
    returns the same pieces. *)
Theorem split_fuel_enough (r : regex) (s : pystr) (extra : nat) :
  split_loop (extra + (2 * List.length s + 2)) r false 0 s = split r s.
Proof.
  unfold split. induction extra as [|extra IH]; [reflexivity|].
  cbn [Nat.add]. rewrite split_loop_more_fuel; [exact IH|].
  unfold split_need. lia.
Qed.

(** ** The dtypes of the columns read *)

Example text_dtype_titles :
  text_dtype [Some (u "Продавец-консультант"); None; Some (u "12")] = ObjectDtype.
Proof. vm_compute. reflexivity. Qed.

Example text_dtype_numbers :
  text_dtype [Some (u "1e5"); None; Some (u " 12 "); Some (u "-Infinity")] = NumericDtype.
Proof. vm_compute. reflexivity. Qed.

Example text_dtype_truth_values :
  text_dtype [Some (u "True"); Some (u "false")] = NumericDtype.
Proof. vm_compute. reflexivity. Qed.

Example text_dtype_mixed :
  text_dtype [Some (u "1"); Some (u "True")] = ObjectDtype.
Proof. vm_compute. reflexivity. Qed.

Example text_dtype_nothing_read :
  text_dtype [None; None] = Float64Dtype /\ text_dtype [] = ObjectDtype.
Proof. split; reflexivity. Qed.

(** A file whose titles are all numbers: the [.str] accessor raises and the
    run ends before anything is printed. *)
Example analyze_numeric_titles :
  analyze_vacancies
    (constant_world true
       (CsvRows [with_name (Some (u "2024")) (sample_row 50000 50000)])
       (RequestFails (IOError (u "unreachable"))))
    (u "vacancies.csv") [u "Продавец"]
  = ([], Raise AttributeError).
Proof. vm_compute. reflexivity. Qed.

(* ================================================================= *)
(** * Further properties of the code *)

(** ** [clean_salaries] *)

Lemma clean_row_complete (i : nat) (r : row) :
  complete r -> clean_row (i, r) = [(i, r)].
Proof.
  intros [Hf Ht]. destruct r as [n a p f t c k].
  cbn [salary_from salary_to] in Hf, Ht. unfold clean_row, fillna.
  cbn [fst snd salary_from salary_to set_salary_from set_salary_to
       name area_name published_at salary_currency key_skills].
  rewrite Hf. cbn iota. rewrite Ht. cbn iota. rewrite Hf. reflexivity.
Qed.

Lemma clean_row_cases (ir : nat * row) :
  (has_bound ir = false /\ clean_row ir = []) \/
  (has_bound ir = true /\ exists r', clean_row ir = [(fst ir, r')] /\ complete r').
Proof.
  destruct ir as [i r]. unfold has_bound, no_bound. cbn [fst snd].
  destruct (isna (salary_from r)) eqn:Hf; destruct (isna (salary_to r)) eqn:Ht.
  - left. split; [reflexivity|]. apply clean_row_both_absent; assumption.
  - right. split; [reflexivity|]. exists (with_salaries (salary_to r) r).
    split; [|split; exact Ht].
    apply clean_row_only_bound. left. auto.
  - right. split; [reflexivity|]. exists (with_salaries (salary_from r) r).
    split; [|split; exact Hf].
    apply clean_row_only_bound. right. auto.
  - right. split; [reflexivity|]. exists r.
    split; [apply clean_row_complete; split; assumption | split; assumption].
Qed.

Lemma flat_map_clean_row_fixed (rs : list (nat * row)) :
  (forall ir, In ir rs -> complete (snd ir)) ->
  flat_map clean_row rs = rs.
Proof.
  induction rs as [|[i r] rs IH]; intro H; [reflexivity|].
  cbn [flat_map].
  assert (Hc : complete r) by exact (H (i, r) (or_introl eq_refl)).
  rewrite (clean_row_complete i Hc).
  rewrite IH; [reflexivity|]. intros ir Hin. apply H. right. exact Hin.
Qed.

Lemma clean_rows_complete (rs : list (nat * row)) (ir : nat * row) :
  In ir (flat_map clean_row rs) -> complete (snd ir).
Proof.
  intro H. apply in_flat_map in H. destruct H as (ir0 & _ & H).
  destruct (clean_row_present _ _ H) as (_ & Hf & Ht). split; assumption.
Qed.

(** X1. Normalising a normalised table changes nothing. *)
Theorem clean_salaries_idempotent (df : DataFrame) :
  clean_salaries (clean_salaries df) = clean_salaries df.
Proof.
  assert (H : rows (clean_salaries (clean_salaries df)) = rows (clean_salaries df)).
  { rewrite (clean_salaries_rowwise (clean_salaries df)).
    apply flat_map_clean_row_fixed. intros ir Hin.
    rewrite clean_salaries_rowwise in Hin. exact (clean_rows_complete _ _ Hin). }
  unfold clean_salaries at 1. unfold with_rows.
  change (dropna_salaries (fill_salary_to (fill_salary_from (rows (clean_salaries df)))))
    with (rows (clean_salaries (clean_salaries df))).
  rewrite H. destruct (clean_salaries df); reflexivity.
Qed.

(** X2. [clean_salaries] keeps the rows that have a salary bound, in
    their order and under their labels, and no other; every row it returns
    has both bounds present; a row that had both is returned as it was. *)
Theorem clean_salaries_keeps_rows_with_a_bound (df : DataFrame) :
  map fst (rows (clean_salaries df)) = map fst (filter has_bound (rows df)) /\
  (forall ir, In ir (rows (clean_salaries df)) -> complete (snd ir)) /\
  (forall ir, In ir (rows df) -> complete (snd ir) ->
              In ir (rows (clean_salaries df))).
Proof.
  rewrite clean_salaries_rowwise. split; [|split].
  - induction (rows df) as [|ir rs IH]; [reflexivity|].
    cbn [flat_map filter]. rewrite map_app, IH.
    destruct (clean_row_cases ir) as [[Hb ->] | [Hb (r' & -> & _)]]; rewrite Hb;
      reflexivity.
  - intros ir. apply clean_rows_complete.
  - intros [i r] Hin Hc. cbn [snd] in Hc.
    apply in_flat_map. exists (i, r). split; [exact Hin|].
    rewrite (clean_row_complete i Hc). left. reflexivity.
Qed.

(** ** [get_currency_rates] *)

(** X3. Every call of [get_currency_rates] makes one request and returns
    a table with the four codes RUR, USD, EUR, KZT in this order; it prints
    nothing when the fetch succeeds and one error message, before returning
    the fallback table, when it fails. *)
Theorem get_currency_rates_shape (h : http_outcome) :
  exists t rates,
    get_currency_rates h = (t, Ok rates) /\
    map fst rates = rate_codes /\
    http_requests t = 1 /\
    ((fetch_rates h = Ok rates /\ t = [EvHttpGet]) \/
     (exists e, fetch_rates h = Raise e /\ rates = fallback_rates /\
                t = [EvHttpGet; EvPrint (MsgRatesError e)])).
Proof.
  unfold get_currency_rates.
  destruct (fetch_rates h) as [rates|e|] eqn:E.
  - exists [EvHttpGet], rates.
    split; [reflexivity|]. split; [|split; [reflexivity|]].
    + destruct h as [e|e|data]; simpl in E; try discriminate.
      destruct (live_rates_shape _ E) as (usd & eur & kzt & ->). reflexivity.
    + left. split; reflexivity.
  - exists [EvHttpGet; EvPrint (MsgRatesError e)], fallback_rates.
    split; [reflexivity|]. split; [reflexivity|]. split; [reflexivity|].
    right. exists e. split; [reflexivity|]. split; reflexivity.
  - exfalso. exact (fetch_rates_supported h E).
Qed.

(** The fallback table has a multiplier for every currency cell. *)
Lemma fallback_multiplier (code : option pystr) :
  multiplier (rates_get fallback_rates code) = Some (fallback_rate code).
Proof.
  destruct code as [c|]; [|vm_compute; reflexivity].
  unfold rates_get, fallback_rates, fallback_rate. cbn [dict_lookup].
  destruct (PyStr.eqb (u "RUR") c); [vm_compute; reflexivity|].
  destruct (PyStr.eqb (u "USD") c); [vm_compute; reflexivity|].
  destruct (PyStr.eqb (u "EUR") c); [vm_compute; reflexivity|].
  destruct (PyStr.eqb (u "KZT") c); vm_compute; reflexivity.
Qed.

Lemma calculate_salary_fallback (r : row) :
  complete r ->
  calculate_salary r fallback_rates = Ok (Some (fallback_salary r)).
Proof.
  intros [Hf _]. unfold fallback_salary.
  apply (calculate_salary_present r fallback_rates); [|apply fallback_multiplier].
  unfold no_bound. rewrite Hf. reflexivity.
Qed.

(** *** Rounding never makes a missing value *)

Lemma isna_false (x : float) : isna x = false <-> Prim2SF x <> S754_nan.
Proof.
  split.
  - intros H E. assert (Hx : x = nan) by (apply Prim2SF_inj; exact E).
    subst x. discriminate H.
  - intro H. destruct (isna x) eqn:E; [|reflexivity].
    apply isna_nan in E. subst x. exfalso. apply H. reflexivity.
Qed.

Lemma shr_1_nonneg (mrs : shr_record) :
  (0 <= shr_m mrs)%Z -> (0 <= shr_m (shr_1 mrs))%Z.
Proof.
  destruct mrs as [m r s]. cbn [shr_m]. intro H.
  destruct m as [|p|p]; [cbn; lia | | lia].
  destruct p; cbn; lia.
Qed.

Lemma iter_shr_1_nonneg (p : positive) :
  forall mrs, (0 <= shr_m mrs)%Z -> (0 <= shr_m (iter_pos shr_1 p mrs))%Z.
Proof.
  induction p as [p IH|p IH|]; intros mrs H; cbn [iter_pos].
  - apply IH, IH, shr_1_nonneg, H.
  - apply IH, IH, H.
  - apply shr_1_nonneg, H.
Qed.

Lemma shr_fexp_nonneg (m e : Z) (l : location) :
  (0 <= m)%Z -> (0 <= shr_m (fst (shr_fexp prec emax m e l)))%Z.
Proof.
  intro H. unfold shr_fexp, shr.
  assert (H0 : (0 <= shr_m (shr_record_of_loc m l))%Z).
  { destruct l as [|[| |]]; exact H. }
  destruct (_ - e)%Z; cbn [fst]; try exact H0.
  apply iter_shr_1_nonneg, H0.
Qed.

Lemma round_nearest_even_nonneg (m : Z) (l : location) :
  (0 <= m)%Z -> (0 <= round_nearest_even m l)%Z.
Proof.
  intro H. unfold round_nearest_even.
  destruct l as [|[| |]]; try lia. destruct (Z.even m); lia.
Qed.

Lemma binary_round_aux_not_nan (s : bool) (m e : Z) (l : location) :
  (0 <= m)%Z -> binary_round_aux prec emax s m e l <> S754_nan.
Proof.
  intro H. unfold binary_round_aux.
  pose proof (shr_fexp_nonneg e l H) as H1.
  destruct (shr_fexp prec emax m e l) as [mrs' e']. cbn [fst] in H1.
  pose proof (shr_fexp_nonneg e' loc_Exact
                (round_nearest_even_nonneg (loc_of_shr_record mrs') H1)) as H2.
  destruct (shr_fexp prec emax _ e' loc_Exact) as [mrs'' e'']. cbn [fst] in H2.
  destruct (shr_m mrs'') as [|p|p]; [discriminate | | lia].
  destruct (Z.leb _ _); discriminate.
Qed.

Lemma SFdiv_core_binary_nonneg (mx my : positive) (ex ey : Z) :
  (0 <= fst (fst (SFdiv_core_binary prec emax (Zpos mx) ex (Zpos my) ey)))%Z.
Proof.
  unfold SFdiv_core_binary.
  set (s := (_ - _ - _)%Z).
  set (m' := match s with Zpos _ => _ | Z0 => _ | Zneg _ => _ end).
  assert (Hm : (0 <= m')%Z).
  { subst m'. destruct s; [lia | | lia]. apply Z.shiftl_nonneg. lia. }
  pose proof (Z.div_eucl_eq m' (Zpos my) ltac:(lia)) as Hd.
  pose proof (Z.mod_pos_bound m' (Zpos my) ltac:(lia)) as Hr.
  unfold Z.modulo in Hr.
  destruct (Z.div_eucl m' (Zpos my)) as [q r]. cbn [fst]. nia.
Qed.

(** A number divided by a finite number other than zero is a number. *)
Lemma div_not_nan (x y : float) (s : bool) (m : positive) (e : Z) :
  Prim2SF y = S754_finite s m e ->
  isna x = false -> isna (x / y) = false.
Proof.
  intros Hy Hx. rewrite isna_false in *. rewrite div_spec, Hy.
  unfold SF64div, SFdiv.
  destruct (Prim2SF x) as [sx|sx| |sx mx ex]; try discriminate; [congruence|].
  pose proof (SFdiv_core_binary_nonneg mx m ex e) as H.
  destruct (SFdiv_core_binary prec emax (Zpos mx) ex (Zpos m) e) as [[mz ez] lz].
  cbn [fst] in H. apply binary_round_aux_not_nan. exact H.
Qed.

(** So is a number times a finite number other than zero. *)
Lemma mul_not_nan (x y : float) (s : bool) (m : positive) (e : Z) :
  Prim2SF y = S754_finite s m e ->
  isna x = false -> isna (x * y) = false.
Proof.
  intros Hy Hx. rewrite isna_false in *. rewrite mul_spec, Hy.
  unfold SF64mul, SFmul.
  destruct (Prim2SF x) as [sx|sx| |sx mx ex]; try discriminate; [congruence|].
  apply binary_round_aux_not_nan. lia.
Qed.

Lemma fallback_rate_finite (code : option pystr) :
  exists s m e, Prim2SF (fallback_rate code) = S754_finite s m e.
Proof.
  destruct code as [c|]; [|do 3 eexists; vm_compute; reflexivity].
  unfold fallback_rate.
  destruct (PyStr.eqb (u "RUR") c); [do 3 eexists; vm_compute; reflexivity|].
  destruct (PyStr.eqb (u "USD") c); [do 3 eexists; vm_compute; reflexivity|].
  destruct (PyStr.eqb (u "EUR") c); [do 3 eexists; vm_compute; reflexivity|].
  destruct (PyStr.eqb (u "KZT") c); do 3 eexists; vm_compute; reflexivity.
Qed.

Lemma fallback_salary_present (r : row) :
  isna (salary_from r + salary_to r) = false -> isna (fallback_salary r) = false.
Proof.
  intro H. unfold fallback_salary.
  destruct (fallback_rate_finite (salary_currency r)) as (s & m & e & Hrate).
  apply (@mul_not_nan _ _ s m e Hrate).
  assert (Htwo : Prim2SF 2 = S754_finite false 4503599627370496 (-51))
    by (vm_compute; reflexivity).
  exact (@div_not_nan _ _ _ _ _ Htwo H).
Qed.

(** ** The salary column: [apply] over the filtered rows *)

Lemma http_requests_app (t1 t2 : list event) :
  http_requests (t1 ++ t2) = http_requests t1 + http_requests t2.
Proof. unfold http_requests. rewrite filter_app, length_app. reflexivity. Qed.

Lemma io_bind_trace {A B : Type} (m : io A) (f : A -> io B) :
  fst (io_bind m f)
  = fst m ++ match snd m with
             | Ok v => fst (f v)
             | _ => []
             end.
Proof.
  destruct m as [t [v|e|]]; cbn [io_bind fst snd].
  - destruct (f v). reflexivity.
  - rewrite app_nil_r. reflexivity.
  - rewrite app_nil_r. reflexivity.
Qed.

Lemma io_bind_ok {A B : Type} (m : io A) (f : A -> io B) (b : B) :
  snd (io_bind m f) = Ok b ->
  exists a, snd m = Ok a /\ snd (f a) = Ok b.
Proof.
  destruct m as [t [v|e|]]; cbn [io_bind snd]; try discriminate.
  destruct (f v) eqn:E. cbn [snd]. intro H. exists v. rewrite E. auto.
Qed.

Lemma get_currency_rates_trace (h : http_outcome) :
  http_requests (fst (get_currency_rates h)) = 1 /\
  exists rates, snd (get_currency_rates h) = Ok rates.
Proof.
  unfold get_currency_rates. destruct (fetch_rates h) as [rates|e|] eqn:E.
  - split; [reflexivity | exists rates; reflexivity].
  - split; [reflexivity | exists fallback_rates; reflexivity].
  - exfalso. exact (fetch_rates_supported h E).
Qed.

Lemma apply_salary_requests (w : world) (rs : list (nat * row)) :
  forall k,
    http_requests (fst (apply_salary w k rs)) <= List.length rs /\
    (forall salaries,
        snd (apply_salary w k rs) = Ok salaries ->
        http_requests (fst (apply_salary w k rs)) = List.length rs /\
        List.length salaries = List.length rs).
Proof.
  induction rs as [|ir rs IH]; intro k.
  - cbn. split; [lia|]. intros salaries [= <-]. split; reflexivity.
  - cbn [apply_salary].
    destruct (get_currency_rates_trace (rates_request w k)) as [H1 [rates Hr]].
    destruct (get_currency_rates (rates_request w k)) as [t1 res1].
    cbn [fst snd] in H1, Hr. subst res1.
    specialize (IH (S k)).
    destruct (apply_salary w (S k) rs) as [t2 res2]. cbn [fst snd] in IH.
    destruct IH as [Hle Heq].
    unfold lift, io_ret. cbn [io_bind].
    destruct (calculate_salary (snd ir) rates) as [s| |]; cbn [io_bind fst snd length];
      rewrite ?app_nil_l, ?app_nil_r, ?http_requests_app, ?H1;
      try (split; [cbn; lia | discriminate]).
    destruct res2 as [ss| |]; cbn [fst snd];
      rewrite ?app_nil_l, ?app_nil_r, ?http_requests_app, ?H1;
      try (split; [lia | discriminate]).
    split; [lia|]. intros salaries [= <-].
    destruct (Heq ss eq_refl) as [E1 E2]. cbn [length]. lia.
Qed.

Lemma quiet_bind {A B : Type} (m : io A) (f : A -> io B) :
  quiet m -> (forall v, quiet (f v)) -> quiet (io_bind m f).
Proof.
  unfold quiet. intros Hm Hf. rewrite io_bind_trace, http_requests_app, Hm.
  destruct (snd m); [apply Hf | reflexivity | reflexivity].
Qed.

Lemma quiet_emit (e : event) : is_http_get e = false -> quiet (emit e).
Proof. unfold quiet, emit, http_requests. cbn. intros ->. reflexivity. Qed.

Lemma quiet_lift {A : Type} (r : result A) : quiet (lift r).
Proof. reflexivity. Qed.

Lemma quiet_for_each {A : Type} (f : A -> io unit) (l : list A) :
  (forall a, quiet (f a)) -> quiet (for_each f l).
Proof.
  intro H. induction l as [|a l IH]; [reflexivity|].
  cbn [for_each]. apply quiet_bind; [apply H | intros _; exact IH].
Qed.

Lemma plot_top_cities_by_year_quiet (df : Enriched) (top_n : nat) :
  quiet (plot_top_cities_by_year df top_n).
Proof.
  unfold plot_top_cities_by_year.
  destruct (all_present (years_of df)); [|apply quiet_lift].
  apply quiet_for_each. intro y. unfold plot_cities_of_year.
  destruct (Nat.eqb _ 0); [reflexivity|].
  destruct (existsb _ _ && _); [apply quiet_emit|]; reflexivity.
Qed.

Lemma plot_salaries_quiet (df : Enriched) : quiet (plot_salaries df).
Proof.
  unfold plot_salaries. destruct (existsb _ _); [apply quiet_emit; reflexivity|].
  apply quiet_lift.
Qed.

Lemma plot_skills_quiet (possessive : bool) (df : Enriched) (top_n : nat) :
  quiet (plot_skills possessive df top_n).
Proof.
  unfold plot_skills. apply quiet_bind; [apply quiet_lift|].
  intro skills. destruct (existsb _ _ && _); [apply quiet_emit; reflexivity|].
  apply quiet_lift.
Qed.

Lemma io_bind_lift_ok {A B : Type} (v : A) (f : A -> io B) :
  io_bind (lift (Ok v)) f = f v.
Proof. unfold lift, io_bind. destruct (f v). reflexivity. Qed.

(** ** [analyze_vacancies] *)

(** X4. The rates endpoint is requested once for every vacancy the
    keyword filter keeps, not once for the run: a run never makes more
    requests than there are matching vacancies, and a run that returns
    normally has made exactly that many. *)
Theorem analyze_vacancies_requests_per_vacancy (w : world) (filename : pystr)
    (keywords : list pystr) (rs : list row) (filtered : DataFrame) :
  read_csv w filename = CsvRows rs ->
  keyword_filter (possessive_quantifiers w) keywords (prepared rs) = Ok filtered ->
  http_requests (fst (analyze_vacancies w filename keywords))
  <= List.length (rows filtered) /\
  (snd (analyze_vacancies w filename keywords) = Ok tt ->
   http_requests (fst (analyze_vacancies w filename keywords))
   = List.length (rows filtered)).
Proof.
  intros Hread Hfilter. unfold analyze_vacancies. rewrite Hread.
  unfold prepared in Hfilter. rewrite Hfilter, io_bind_lift_ok.
  destruct (Nat.eqb (List.length (rows filtered)) 0) eqn:Hempty.
  - apply Nat.eqb_eq in Hempty. rewrite Hempty. cbn. split; [lia | reflexivity].
  - pose proof (apply_salary_requests w (rows filtered) 0) as [Hle Heq].
    set (report := fun salaries : list (option float) => _).
    assert (Hq : forall salaries, quiet (report salaries)).
    { intro salaries. unfold report.
      repeat (apply quiet_bind; [apply quiet_emit; reflexivity | intros _]).
      apply quiet_bind; [apply plot_top_cities_by_year_quiet | intros _].
      apply quiet_bind; [apply plot_salaries_quiet | intros _].
      apply plot_skills_quiet. }
    rewrite io_bind_trace, http_requests_app. split.
    + destruct (snd (apply_salary w 0 (rows filtered))); [rewrite Hq|cbn|cbn]; lia.
    + intro Hok. apply io_bind_ok in Hok.
      destruct Hok as (salaries & Hs & _). rewrite Hs, Hq.
      destruct (Heq salaries Hs) as [E _]. lia.
Qed.

Lemma select_incl {A : Type} (l : list A) :
  forall (mask : list bool) (x : A), In x (select l mask) -> In x l.
Proof.
  induction l as [|a l IH]; intros mask x; [destruct mask; contradiction|].
  destruct mask as [|b mask]; [contradiction|]. cbn [select].
  destruct b.
  - intros [<- | H]; [left; reflexivity | right; exact (IH _ _ H)].
  - intro H. right. exact (IH _ _ H).
Qed.

Lemma keyword_filter_incl (possessive : bool) (keywords : list pystr)
    (df filtered : DataFrame) (ir : nat * row) :
  keyword_filter possessive keywords df = Ok filtered ->
  In ir (rows filtered) -> In ir (rows df).
Proof.
  unfold keyword_filter. intro H. apply bind_ok in H.
  destruct H as (mask & _ & [= <-]). cbn [rows with_rows]. apply select_incl.
Qed.

Lemma in_combine_seq {A : Type} (l : list A) :
  forall (k i : nat) (a : A),
    In (i, a) (combine (seq k (List.length l)) l) ->
    k <= i /\ nth_error l (i - k) = Some a.
Proof.
  induction l as [|x l IH]; intros k i a; [contradiction|].
  cbn [length seq combine]. intros [[= <- <-] | H].
  - split; [lia|]. rewrite Nat.sub_diag. reflexivity.
  - apply IH in H. destruct H as [Hle Hn]. split; [lia|].
    replace (i - k) with (S (i - S k)) by lia. exact Hn.
Qed.

Lemma clean_row_cells (ir jr : nat * row) :
  In jr (clean_row ir) -> same_cells (snd jr) (snd ir).
Proof.
  unfold clean_row. destruct (isna _ && isna _); [contradiction|].
  intros [<- | []]. cbn [snd]. repeat split.
Qed.

(** X5. Every row of the table the keyword filter returns in
    [analyze_vacancies] has a title, a city and both salary bounds; its
    label is the number of its row in the file, and its other cells are
    those of that row. *)
Theorem filtered_rows_are_complete_file_rows (possessive : bool)
    (keywords : list pystr) (rs : list row) (filtered : DataFrame)
    (i : nat) (r : row) :
  keyword_filter possessive keywords (prepared rs) = Ok filtered ->
  In (i, r) (rows filtered) ->
  is_some (name r) = true /\ is_some (area_name r) = true /\ complete r /\
  exists r0, nth_error rs i = Some r0 /\ same_cells r r0.
Proof.
  intros Hf Hin. apply (@keyword_filter_incl _ _ _ _ _ Hf) in Hin.
  unfold prepared, dropna_required in Hin. cbn [rows with_rows] in Hin.
  apply filter_In in Hin. destruct Hin as [Hin Hreq]. cbn [snd] in Hreq.
  apply andb_prop in Hreq. destruct Hreq as [Harea Hname].
  split; [exact Hname|]. split; [exact Harea|].
  rewrite clean_salaries_rowwise in Hin.
  split; [exact (clean_rows_complete _ _ Hin)|].
  apply in_flat_map in Hin. destruct Hin as ([j r0] & Hin0 & Hc).
  destruct (clean_row_present _ _ Hc) as [Hj _]. cbn [fst] in Hj. subst j.
  unfold frame_of in Hin0. cbn [rows] in Hin0.
  apply in_combine_seq in Hin0. destruct Hin0 as [_ Hn].
  rewrite Nat.sub_0_r in Hn. exists r0. split; [exact Hn|].
  exact (clean_row_cells _ _ Hc).
Qed.

Lemma prepared_rows_complete (rs : list row) (ir : nat * row) :
  In ir (rows (prepared rs)) -> complete (snd ir).
Proof.
  unfold prepared, dropna_required. cbn [rows with_rows]. intro Hin.
  apply filter_In in Hin. destruct Hin as [Hin _].
  rewrite clean_salaries_rowwise in Hin. exact (clean_rows_complete _ _ Hin).
Qed.

Lemma get_currency_rates_down (h : http_outcome) (e : exn) :
  fetch_rates h = Raise e ->
  get_currency_rates h = ([EvHttpGet; EvPrint (MsgRatesError e)], Ok fallback_rates).
Proof. intro H. unfold get_currency_rates. rewrite H. reflexivity. Qed.

(** X6. When every request to the rates endpoint fails, the salary column
    of rows with both bounds present is computed from the fallback table
    with no exception: the salary of each row is the half sum of its bounds
    times the fallback rate of its currency code (1 for a code the table
    does not have), a number whenever the sum of the bounds is one; and the
    trace is, row after row, the request followed by the message of its
    error, nothing else. *)
Theorem salaries_when_endpoint_down (w : world) (err : nat -> exn)
    (rs : list (nat * row)) :
  endpoint_down w err ->
  (forall ir, In ir rs -> complete (snd ir)) ->
  forall k,
    apply_salary w k rs
    = (failed_requests err k (List.length rs),
       Ok (map (fun ir => Some (fallback_salary (snd ir))) rs)) /\
    (forall ir, In ir rs ->
                isna (salary_from (snd ir) + salary_to (snd ir)) = false ->
                isna (fallback_salary (snd ir)) = false).
Proof.
  intros Hdown Hc k. split; [|intros ir _; apply fallback_salary_present].
  revert k. induction rs as [|ir rs IH]; intro k; [reflexivity|].
  cbn [apply_salary]. rewrite (get_currency_rates_down _ (Hdown k)).
  cbn [io_bind]. unfold lift.
  rewrite (calculate_salary_fallback (Hc ir (or_introl eq_refl))).
  rewrite (IH (fun ir' H => Hc ir' (or_intror H)) (S k)).
  cbn [io_bind io_ret]. rewrite !app_nil_r. reflexivity.
Qed.

Lemma float_mul_none (x : float) : float_mul x PNone = Raise TypeError.
Proof. reflexivity. Qed.

(** X7. A response of the expected shape is not checked: with [null] as
    the USD value and a KZT value that divides, [get_currency_rates] returns
    it as live data, and in a run whose first matching vacancy is paid in
    USD the multiplication raises TypeError; the run ends with it after one
    request, nothing printed. *)
Theorem null_rate_ends_the_run (w : world) (filename : pystr)
    (keywords : list pystr) (rs : list row) (filtered : DataFrame)
    (i : nat) (r : row) (rest : list (nat * row)) (eur kzt : pyval) (k : float) :
  read_csv w filename = CsvRows rs ->
  keyword_filter (possessive_quantifiers w) keywords (prepared rs) = Ok filtered ->
  rows filtered = (i, r) :: rest ->
  salary_currency r = Some (u "USD") ->
  rates_request w 0 = Body (valute_of PNone eur kzt) ->
  truediv_100 kzt = Ok k ->
  get_currency_rates (rates_request w 0)
  = ([EvHttpGet],
     Ok [ (u "RUR", PInt 1); (u "USD", PNone); (u "EUR", eur); (u "KZT", PFloat k) ]) /\
  analyze_vacancies w filename keywords = ([EvHttpGet], Raise TypeError).
Proof.
  intros Hread Hfilter Hrows Hcur Hreq Hdiv.
  assert (Hget : get_currency_rates (rates_request w 0)
                 = ([EvHttpGet],
                    Ok [ (u "RUR", PInt 1); (u "USD", PNone); (u "EUR", eur);
                         (u "KZT", PFloat k) ])).
  { rewrite Hreq. unfold get_currency_rates, fetch_rates, live_rates.
    change (valute_value (valute_of PNone eur kzt) (u "USD")) with (Ok PNone).
    change (valute_value (valute_of PNone eur kzt) (u "EUR")) with (Ok eur).
    change (valute_value (valute_of PNone eur kzt) (u "KZT")) with (Ok kzt).
    cbn [bind]. rewrite Hdiv. reflexivity. }
  split; [exact Hget|].
  assert (Hc : complete r).
  { apply (@prepared_rows_complete rs (i, r)).
    apply (@keyword_filter_incl _ _ _ _ _ Hfilter). rewrite Hrows. left. reflexivity. }
  assert (Hcalc : calculate_salary r
                    [ (u "RUR", PInt 1); (u "USD", PNone); (u "EUR", eur);
                      (u "KZT", PFloat k) ]
                  = Raise TypeError).
  { unfold calculate_salary. destruct Hc as [Hf _]. rewrite Hf, Hcur. reflexivity. }
  unfold analyze_vacancies. rewrite Hread.
  unfold prepared in Hfilter. rewrite Hfilter, io_bind_lift_ok, Hrows.
  cbn [length Nat.eqb apply_salary snd]. rewrite Hget.
  cbn [io_bind]. unfold lift. rewrite Hcalc. reflexivity.
Qed.

(** X8. An empty keyword, or no keyword at all, matches every title:
    with keywords free of special characters, the filter then keeps every
    row of a table whose rows all have a title. *)
Theorem empty_keyword_keeps_every_row (possessive : bool) (keywords : list pystr)
    (df : DataFrame) :
  name_dtype df = ObjectDtype ->
  forallb plain keywords = true ->
  keywords = [] \/ In [] keywords ->
  (forall ir, In ir (rows df) -> is_some (name (snd ir)) = true) ->
  keyword_filter possessive keywords df = Ok df.
Proof.
  intros Hd Hp He Hn. rewrite (@keyword_filter_plain possessive keywords df Hd Hp).
  assert (Hall : forall title, some_keyword_in keywords title = true).
  { intro title. destruct He as [-> | Hin]; [reflexivity|].
    unfold some_keyword_in. destruct keywords as [|k ks]; [reflexivity|].
    apply existsb_exists. exists []. split; [exact Hin|].
    cbn [str_lower map]. destruct (str_lower title); reflexivity. }
  assert (Hrows : filter (fun ir => title_has_keyword keywords (name (snd ir))) (rows df)
                  = rows df).
  { induction (rows df) as [|ir l IH]; [reflexivity|]. cbn [filter].
    pose proof (Hn ir (or_introl eq_refl)) as Hsome.
    destruct (name (snd ir)) as [title|]; [|discriminate].
    cbn [title_has_keyword]. rewrite Hall. f_equal. apply IH.
    intros ir' H. apply Hn. right. exact H. }
  rewrite Hrows. destruct df; reflexivity.
Qed.

Ltac split_positive p :=
  first [ reflexivity
        | destruct p as [p|p|];
          [split_positive p | split_positive p | reflexivity] ].

Lemma parse_cannot_start (possessive : bool) (c : N) (s : pystr) :
  cannot_start c = true -> parse possessive (c :: s) = PError.
Proof.
  unfold cannot_start. cbn [existsb]. rewrite orb_false_r. intro H.
  assert (Hc : c = 42%N \/ c = 43%N \/ c = 63%N \/ c = 41%N).
  { repeat (apply orb_prop in H; destruct H as [H | H]);
      apply N.eqb_eq in H; auto. }
  unfold parse.
  destruct Hc as [-> | [-> | [-> | ->]]]; destruct possessive;
    try reflexivity;
    (destruct s as [|[|p] s2]; [reflexivity | reflexivity | split_positive p]).
Qed.

Lemma join_cons_cons (sep : pystr) (c : N) (k : pystr) (ks : list pystr) :
  exists s, join sep ((c :: k) :: ks) = c :: s.
Proof.
  destruct ks as [|k' ks]; cbn [join app]; eexists; reflexivity.
Qed.

(** X9. A first keyword that begins with [*], [+], [?] or [)] is not a
    pattern: under either version of the [re] module the run ends with an
    exception at the filter, before anything is printed or requested. *)
Theorem keyword_starting_with_operator_ends_run (w : world) (filename : pystr)
    (rs : list row) (c : N) (k : pystr) (ks : list pystr) :
  read_csv w filename = CsvRows rs ->
  cannot_start c = true ->
  re_compile (possessive_quantifiers w) (join (u "|") ((c :: k) :: ks)) = Raise ReError /\
  exists e, analyze_vacancies w filename ((c :: k) :: ks) = ([], Raise e).
Proof.
  intros Hread Hc.
  assert (Hre : re_compile (possessive_quantifiers w) (join (u "|") ((c :: k) :: ks))
                = Raise ReError).
  { destruct (join_cons_cons (u "|") c k ks) as [s ->].
    unfold re_compile.
    rewrite (@parse_cannot_start (possessive_quantifiers w) c s Hc). reflexivity. }
  split; [exact Hre|].
  exact (analyze_vacancies_bad_pattern w filename _ Hread Hre).
Qed.

(** ** The skills splitter of [plot_skills] *)

Lemma skills_pattern_compiles (possessive : bool) :
  re_compile possessive skills_pattern = Ok skills_regex.
Proof. destruct possessive; vm_compute; reflexivity. Qed.

Lemma until_max_optional (body : matcher) (fuel : nat) (hi : option nat)
    (count : nat) (last : option nat) (c : cursor) (k : cont) :
  fuel <> 0 -> k c <> None ->
  until_max body fuel 0 hi count last c k <> None.
Proof.
  intros Hfuel Hk. destruct fuel as [|fuel]; [congruence|].
  cbn [until_max Nat.ltb Nat.leb].
  destruct (below count hi && negb (same_place last c)); [|exact Hk].
  destruct (body c _); [discriminate | exact Hk].
Qed.

Lemma run_spaces (c : cursor) (k : cont) :
  k c <> None -> run false spaces c k <> None.
Proof.
  intro Hk. unfold spaces. cbn [run].
  apply until_max_optional; [unfold rep_fuel; lia | exact Hk].
Qed.

Lemma run_sign_spaces (x : N) (pos : nat) (s : pystr) (k : cont) :
  k (S pos, s) <> None ->
  run false (Cat (Lit x) (Cat spaces Eps)) (pos, x :: s) k <> None.
Proof.
  intro Hk. cbn [run]. unfold one_char, chr_eq. cbn [fst snd].
  rewrite N.eqb_refl. apply run_spaces. exact Hk.
Qed.

Lemma run_spaces_sign_spaces (x : N) (pos : nat) (s : pystr) (k : cont) :
  k (S pos, s) <> None ->
  run false (Cat spaces (Cat (Lit x) (Cat spaces Eps))) (pos, x :: s) k <> None.
Proof.
  intro Hk.
  change (run false (Cat spaces (Cat (Lit x) (Cat spaces Eps))) (pos, x :: s) k)
    with (run false spaces (pos, x :: s)
            (fun c' => run false (Cat (Lit x) (Cat spaces Eps)) c' k)).
  apply run_spaces. apply run_sign_spaces. exact Hk.
Qed.

Lemma run_alt_l (r1 r2 : regex) (c : cursor) (k : cont) :
  run false r1 c k <> None -> run false (Alt r1 r2) c k <> None.
Proof. cbn [run]. destruct (run false r1 c k); [discriminate | congruence]. Qed.

Lemma run_alt_r (r1 r2 : regex) (c : cursor) (k : cont) :
  run false r2 c k <> None -> run false (Alt r1 r2) c k <> None.
Proof. cbn [run]. destruct (run false r1 c k); [discriminate | auto]. Qed.

(** The pattern matches wherever a separator stands. *)
Lemma skills_regex_at_separator (x : N) (pos : nat) (s : pystr) (k : cont) :
  separator x = true -> k (S pos, s) <> None ->
  run false skills_regex (pos, x :: s) k <> None.
Proof.
  unfold separator. intros Hx Hk.
  apply orb_prop in Hx. destruct Hx as [Hx | Hx];
    [apply orb_prop in Hx; destruct Hx as [Hx | Hx]|];
    apply N.eqb_eq in Hx; subst x; unfold skills_regex.
  - apply run_alt_l. apply run_sign_spaces. exact Hk.
  - apply run_alt_r, run_alt_r. apply run_spaces_sign_spaces. exact Hk.
  - apply run_alt_r, run_alt_l. apply run_spaces_sign_spaces. exact Hk.
Qed.

Lemma accept_next (must_advance : bool) (pos : nat) (s : pystr) :
  accept must_advance pos (S pos, s) <> None.
Proof.
  unfold accept. cbn [fst].
  replace (Nat.eqb (S pos) pos) with false
    by (symmetry; apply Nat.eqb_neq; lia).
  rewrite andb_false_r. discriminate.
Qed.

Lemma search_skills_piece (s : pystr) :
  forall (must_advance : bool) (pos start : nat) (e : cursor),
    search_from false skills_regex must_advance pos s = Some (start, e) ->
    Forall (fun c => separator c = false) (firstn (start - pos) s).
Proof.
  induction s as [|x s IH]; intros must_advance pos start e;
    rewrite search_from_unfold;
    destruct (run _ _ _ _) as [e'|] eqn:E; try discriminate.
  - intro H. injection H as H1 H2. subst start.
    rewrite Nat.sub_diag. constructor.
  - intro H. pose proof (search_from_reaches _ _ _ _ _ H) as (_ & Hle & _).
    replace (start - pos) with (S (start - S pos)) by lia. cbn [firstn].
    constructor; [|exact (IH _ _ _ _ H)].
    destruct (separator x) eqn:Hx; [|reflexivity]. exfalso.
    exact (@skills_regex_at_separator x pos s _ Hx (accept_next must_advance pos s) E).
Qed.

Lemma search_skills_none (s : pystr) :
  forall (must_advance : bool) (pos : nat),
    search_from false skills_regex must_advance pos s = None ->
    Forall (fun c => separator c = false) s.
Proof.
  induction s as [|x s IH]; intros must_advance pos; [constructor|].
  rewrite search_from_unfold.
  destruct (run _ _ _ _) as [e'|] eqn:E; [discriminate|].
  intro H. constructor; [|exact (IH _ _ H)].
  destruct (separator x) eqn:Hx; [|reflexivity]. exfalso.
  exact (@skills_regex_at_separator x pos s _ Hx (accept_next must_advance pos s) E).
Qed.

Lemma split_need_step (r : regex) (must_advance : bool) (pos start e : nat)
    (s rest : pystr) :
  search_from false r must_advance pos s = Some (start, (e, rest)) ->
  S (split_need (Nat.eqb e start) rest) <= split_need must_advance s.
Proof.
  intro E. apply search_from_reaches in E. destruct E as (R & Hs & He & Hadv).
  apply reaches_length in R. destruct R as [Hlen _]. cbn [fst snd] in *.
  unfold split_need.
  destruct (Nat.eqb e start) eqn:Heq.
  - apply Nat.eqb_eq in Heq. destruct must_advance.
    + specialize (Hadv eq_refl). lia.
    + lia.
  - apply Nat.eqb_neq in Heq. destruct must_advance; lia.
Qed.

Lemma split_loop_skills_pieces (fuel : nat) :
  forall (must_advance : bool) (pos : nat) (s : pystr),
    split_need must_advance s <= fuel ->
    Forall (Forall (fun c => separator c = false))
           (split_loop fuel skills_regex must_advance pos s).
Proof.
  induction fuel as [|fuel IH]; intros must_advance pos s Hneed.
  - unfold split_need in Hneed. destruct must_advance; lia.
  - cbn [split_loop].
    destruct (search_from false skills_regex must_advance pos s)
      as [[start [e rest]]|] eqn:E.
    + constructor; [exact (search_skills_piece _ _ _ E)|].
      apply IH. pose proof (split_need_step _ _ _ _ E). lia.
    + constructor; [exact (search_skills_none _ _ _ E) | constructor].
Qed.

Lemma lstrip_suffix (s : pystr) : exists pre, s = pre ++ lstrip s.
Proof.
  induction s as [|c s [pre IH]]; [exists []; reflexivity|].
  cbn [lstrip]. destruct (isspace c).
  - exists (c :: pre). cbn [app]. rewrite <- IH. reflexivity.
  - exists []. reflexivity.
Qed.

Lemma lstrip_hd (s : pystr) (c : N) :
  hd_error (lstrip s) = Some c -> isspace c = false.
Proof.
  induction s as [|x s IH]; [discriminate|]. cbn [lstrip].
  destruct (isspace x) eqn:E; [exact IH|]. intros [= <-]. exact E.
Qed.

Lemma lstrip_in (s : pystr) (c : N) : In c (lstrip s) -> In c s.
Proof.
  destruct (lstrip_suffix s) as [pre H]. intro Hin. rewrite H.
  apply in_or_app. right. exact Hin.
Qed.

Lemma strip_in (s : pystr) (c : N) : In c (strip s) -> In c s.
Proof.
  unfold strip. intro H. apply in_rev in H. apply lstrip_in in H.
  apply in_rev in H. apply lstrip_in in H. exact H.
Qed.

Lemma strip_trimmed (s : pystr) : trimmed (strip s).
Proof.
  unfold trimmed, strip. split; intros c.
  - destruct (lstrip_suffix (rev (lstrip s))) as [pre H].
    intro Hc.
    assert (Hs : lstrip s = rev (lstrip (rev (lstrip s))) ++ rev pre).
    { rewrite <- rev_app_distr, <- H, rev_involutive. reflexivity. }
    apply (lstrip_hd s). rewrite Hs.
    destruct (rev (lstrip (rev (lstrip s)))); [discriminate | exact Hc].
  - rewrite rev_involutive. apply lstrip_hd.
Qed.

Lemma in_explode (col : list (option (list pystr))) (p : pystr) :
  In (Some p) (explode col) -> exists l, In (Some l) col /\ In p l.
Proof.
  unfold explode. intro H. apply in_flat_map in H.
  destruct H as (cell & Hcell & H).
  destruct cell as [[|x l]|].
  - destruct H as [H | []]. discriminate.
  - exists (x :: l). split; [exact Hcell|].
    apply in_map_iff in H. destruct H as (y & [= ->] & Hy). exact Hy.
  - destruct H as [H | []]. discriminate.
Qed.

(** X10. No skill the splitter returns, whatever the cells, contains a
    comma, a slash or the letter "и" (a word with that letter in it is cut
    there), and none begins or ends with white space. *)
Theorem skills_have_no_separator (possessive : bool) (col : list (option pystr))
    (skills : list (option pystr)) (t : pystr) :
  skills_of possessive ObjectDtype col = Ok skills ->
  In (Some t) skills ->
  (forall c, In c t -> separator c = false) /\ trimmed t.
Proof.
  unfold skills_of, str_split. cbn [str_accessor bind].
  rewrite skills_pattern_compiles. cbn [bind].
  change (has_capture skills_regex) with false. cbn iota.
  intros [= <-] Hin.
  apply in_map_iff in Hin. destruct Hin as ([p|] & Ht & Hin); [|discriminate].
  injection Ht as <-. split; [|apply strip_trimmed].
  intros c Hc. apply strip_in in Hc.
  apply in_explode in Hin. destruct Hin as (l & Hl & Hp).
  apply in_map_iff in Hl. destruct Hl as ([s|] & Hs & _); [|discriminate].
  injection Hs as <-.
  pose proof (@split_loop_skills_pieces (2 * List.length s + 2) false 0 s
                ltac:(unfold split_need; lia)) as Hall.
  change (split_loop (2 * List.length s + 2) skills_regex false 0 s)
    with (split skills_regex s) in Hall.
  rewrite Forall_forall in Hall. specialize (Hall p Hp).
  rewrite Forall_forall in Hall. exact (Hall c Hc).
Qed.

(** ** [plot_top_cities_by_year] *)

Lemma insert_sorted_in (y z : Z) (l : list Z) :
  In z (insert_sorted y l) <-> z = y \/ In z l.
Proof.
  induction l as [|x l IH]; cbn [insert_sorted].
  - cbn. intuition.
  - destruct (Z.leb y x); cbn [In]; [intuition|].
    rewrite IH. intuition.
Qed.

Lemma insert_sorted_sorted (y : Z) (l : list Z) :
  StronglySorted Z.lt l -> ~ In y l -> StronglySorted Z.lt (insert_sorted y l).
Proof.
  induction l as [|x l IH]; intros Hs Hn; cbn [insert_sorted].
  - repeat constructor.
  - inversion Hs as [|? ? Hs' Hall]; subst.
    destruct (Z.leb y x) eqn:E.
    + apply Z.leb_le in E.
      assert (Hlt : (y < x)%Z).
      { destruct (Z.eq_dec y x) as [->|]; [|lia]. exfalso. apply Hn. left. reflexivity. }
      constructor; [exact Hs|]. constructor; [exact Hlt|].
      rewrite Forall_forall in *. intros z Hz. specialize (Hall z Hz). lia.
    + apply Z.leb_gt in E. constructor.
      * apply IH; [exact Hs'|]. intro H. apply Hn. right. exact H.
      * rewrite Forall_forall in *. intros z Hz.
        apply insert_sorted_in in Hz. destruct Hz as [-> | Hz]; [exact E | exact (Hall z Hz)].
Qed.

Lemma sorted_unique_spec (l : list Z) :
  StronglySorted Z.lt (sorted_unique l) /\
  (forall y, In y (sorted_unique l) <-> In y l).
Proof.
  unfold sorted_unique.
  assert (H : forall l', NoDup l' ->
             StronglySorted Z.lt (fold_right insert_sorted [] l') /\
             (forall y, In y (fold_right insert_sorted [] l') <-> In y l')).
  { induction l' as [|x l' IH]; intro Hnd.
    - split; [constructor | intro y; reflexivity].
    - inversion Hnd as [|? ? Hnot Hnd']; subst.
      destruct (IH Hnd') as [Hs Hin]. cbn [fold_right]. split.
      + apply insert_sorted_sorted; [exact Hs|]. rewrite Hin. exact Hnot.
      + intro y. rewrite insert_sorted_in, Hin. cbn [In]. intuition. }
  destruct (H (nodup Z.eq_dec l) (NoDup_nodup Z.eq_dec l)) as [Hs Hin].
  split; [exact Hs|]. intro y. rewrite Hin. apply nodup_In.
Qed.

Lemma all_present_in {A : Type} (l : list (option A)) (xs : list A) (a : A) :
  all_present l = Some xs -> (In a xs <-> In (Some a) l).
Proof.
  revert xs. induction l as [|o l IH]; intros xs.
  - intros [= <-]. reflexivity.
  - destruct o as [x|]; [|discriminate]. cbn [all_present].
    destruct (all_present l) as [xs'|]; [|discriminate].
    intros [= <-]. cbn [In]. rewrite (IH xs' eq_refl).
    split; intros [H | H]; auto; left; congruence.
Qed.

Lemma for_each_emits {A : Type} (f : A -> io unit) (g : A -> event) (l : list A) :
  (forall a, In a l -> f a = emit (g a)) ->
  for_each f l = (map g l, Ok tt).
Proof.
  induction l as [|a l IH]; intro H; [reflexivity|].
  cbn [for_each]. rewrite (H a (or_introl eq_refl)).
  rewrite IH by (intros a' Ha'; apply H; right; exact Ha').
  reflexivity.
Qed.

Lemma for_each_silent {A : Type} (f : A -> io unit) (l : list A) :
  (forall a, In a l -> f a = io_ret tt) ->
  for_each f l = ([], Ok tt).
Proof.
  induction l as [|a l IH]; intro H; [reflexivity|].
  cbn [for_each]. rewrite (H a (or_introl eq_refl)).
  rewrite IH by (intros a' Ha'; apply H; right; exact Ha').
  reflexivity.
Qed.

(** X11. On a table in which every row has a year and a city,
    [plot_top_cities_by_year] with [top_n] of one or more shows one chart
    for each year that occurs, drawn from the city cells of that year's
    rows, in increasing order of the years, and nothing else; with [top_n]
    of zero it shows nothing. *)
Theorem plot_top_cities_one_chart_per_year (df : Enriched) (top_n : nat)
    (ys : list Z) :
  all_present (years_of df) = Some ys ->
  (forall iv, In iv (e_rows df) -> is_some (area_name (v_row (snd iv))) = true) ->
  plot_top_cities_by_year df top_n
  = (if Nat.eqb top_n 0 then []
     else map (cities_chart df top_n) (sorted_unique ys), Ok tt) /\
  StronglySorted Z.lt (sorted_unique ys) /\
  (forall y, In y (sorted_unique ys) <->
             exists iv, In iv (e_rows df) /\ year (snd iv) = Some y).
Proof.
  intros Hys Hareas. destruct (sorted_unique_spec ys) as [Hsorted Hin].
  assert (Hyear : forall y, In y (sorted_unique ys) <->
                            exists iv, In iv (e_rows df) /\ year (snd iv) = Some y).
  { intro y. rewrite Hin, (all_present_in _ y Hys). unfold years_of.
    rewrite in_map_iff. split; intros (iv & H1 & H2); exists iv; auto. }
  split; [|split; assumption].
  unfold plot_top_cities_by_year. rewrite Hys.
  assert (Hstep : forall y, In y (sorted_unique ys) ->
             plot_cities_of_year df top_n y
             = if Nat.eqb top_n 0 then io_ret tt else emit (cities_chart df top_n y)).
  { intros y Hy. apply Hyear in Hy. destruct Hy as (iv & Hiv & Hy).
    unfold plot_cities_of_year, cities_chart, areas_of_year.
    assert (Hdata : In iv (filter (year_is y) (e_rows df))).
    { apply filter_In. split; [exact Hiv|]. unfold year_is. rewrite Hy. apply Z.eqb_refl. }
    destruct (filter (year_is y) (e_rows df)) as [|iv0 data] eqn:E; [contradiction|].
    cbn [length Nat.eqb map existsb].
    assert (H0 : In iv0 (e_rows df)).
    { apply (proj1 (filter_In (year_is y) iv0 (e_rows df))). rewrite E. left. reflexivity. }
    rewrite (Hareas iv0 H0). cbn [orb andb].
    destruct (Nat.eqb top_n 0); reflexivity. }
  destruct (Nat.eqb top_n 0).
  - apply for_each_silent. exact Hstep.
  - apply for_each_emits. exact Hstep.
Qed.

(** ** [calculate_salary] *)

(** X12. [calculate_salary] returns [None] exactly for a row without any
    salary bound, and then whatever the rate table holds. *)
Theorem calculate_salary_none_iff_no_bound (r : row) (rates : dict) :
  calculate_salary r rates = Ok None <-> no_bound r = true.
Proof.
  unfold calculate_salary, no_bound.
  destruct (isna (salary_from r) && isna (salary_to r)).
  - split; reflexivity.
  - split; [|discriminate].
    destruct (float_mul _ _); cbn [bind]; discriminate.
Qed.

(** ** The salary column, row by row *)

(** X13. The salary of the n-th matching vacancy is computed with the
    table that the n-th request of the run returned: the rates are fetched
    anew for every row, so the rows of one run need not share a table. *)
Theorem nth_salary_uses_nth_request (w : world) (rs : list (nat * row)) :
  forall (k : nat) (t : list event) (salaries : list (option float))
         (n : nat) (ir : nat * row),
    apply_salary w k rs = (t, Ok salaries) ->
    nth_error rs n = Some ir ->
    exists t' rates s,
      get_currency_rates (rates_request w (k + n)) = (t', Ok rates) /\
      calculate_salary (snd ir) rates = Ok s /\
      nth_error salaries n = Some s.
Proof.
  induction rs as [|ir0 rs IH]; intros k t salaries n ir Ha Hn.
  - destruct n; discriminate.
  - cbn [apply_salary] in Ha.
    destruct (get_currency_rates_returns (rates_request w k)) as (t1 & rates & Hg).
    rewrite Hg in Ha. cbn [io_bind] in Ha. unfold lift in Ha.
    destruct (calculate_salary (snd ir0) rates) as [s| |] eqn:Hc;
      cbn [io_bind] in Ha; try (injection Ha as _ Ha; discriminate).
    destruct (apply_salary w (S k) rs) as [t2 [ss| |]] eqn:Hrest;
      cbn [io_bind io_ret] in Ha; try (injection Ha as _ Ha; discriminate).
    injection Ha as _ <-.
    destruct n as [|n].
    + injection Hn as <-. exists t1, rates, s. rewrite Nat.add_0_r. auto.
    + cbn [nth_error] in Hn |- *.
      destruct (IH (S k) t2 ss n ir Hrest Hn) as (t' & rates' & s' & H1 & H2 & H3).
      exists t', rates', s'. replace (k + S n) with (S k + n) by lia. auto.
Qed.

(** ** The keyword filter and letter case *)

Lemma in_range_true (lo hi c : N) :
  in_range lo hi c = true -> (lo <= c)%N /\ (c <= hi)%N.
Proof.
  unfold in_range. intro H. apply andb_prop in H. destruct H as [H1 H2].
  apply N.leb_le in H1. apply N.leb_le in H2. split; assumption.
Qed.

Lemma in_range_false (lo hi c : N) :
  (c < lo)%N \/ (hi < c)%N -> in_range lo hi c = false.
Proof.
  unfold in_range. intros [H | H].
  - apply N.leb_gt in H. rewrite H. reflexivity.
  - apply N.leb_gt in H. rewrite H. apply andb_false_r.
Qed.

(** A character that is not one of the capital letters stays. *)
Lemma lower_fixed (c : N) :
  (c < 65)%N \/ (90 < c)%N ->
  (c < 192)%N \/ (222 < c)%N \/ c = 215%N ->
  (c < 1024)%N \/ (1071 < c)%N ->
  lower c = c.
Proof.
  intros H1 H2 H3. unfold lower. rewrite (@in_range_false 65 90 c H1).
  rewrite (@in_range_false 1024 1039 c) by lia.
  rewrite (@in_range_false 1040 1071 c) by lia.
  destruct H2 as [H2 | [H2 | ->]].
  - rewrite (@in_range_false 192 222 c) by lia. reflexivity.
  - rewrite (@in_range_false 192 222 c) by lia. reflexivity.
  - reflexivity.
Qed.

(** [lower c] is [c] itself or a small letter. *)
Lemma lower_cases (c : N) :
  lower c = c \/
  ((97 <= lower c)%N /\ (lower c <= 122)%N) \/
  ((224 <= lower c)%N /\ (lower c <= 254)%N /\ lower c <> 247%N) \/
  ((1072 <= lower c)%N /\ (lower c <= 1119)%N).
Proof.
  unfold lower.
  destruct (in_range 65 90 c) eqn:E1.
  { apply in_range_true in E1. right. left. lia. }
  destruct (in_range 192 222 c && negb (N.eqb c 215)) eqn:E2.
  { apply andb_prop in E2. destruct E2 as [E2 E2'].
    apply in_range_true in E2. apply negb_true_iff, N.eqb_neq in E2'.
    right. right. left. lia. }
  destruct (in_range 1024 1039 c) eqn:E3.
  { apply in_range_true in E3. right. right. right. lia. }
  destruct (in_range 1040 1071 c) eqn:E4.
  { apply in_range_true in E4. right. right. right. lia. }
  left. reflexivity.
Qed.

Lemma lower_idempotent (c : N) : lower (lower c) = lower c.
Proof.
  destruct (lower_cases c) as [H | [H | [H | H]]].
  - rewrite !H. reflexivity.
  - apply lower_fixed; lia.
  - apply lower_fixed; lia.
  - apply lower_fixed; lia.
Qed.

Lemma special_false (c : N) :
  ~ In c [46; 92; 91; 123; 40; 41; 42; 43; 63; 94; 36; 124]%N -> special c = false.
Proof.
  intro H. unfold special. destruct (existsb _ _) eqn:E; [|reflexivity].
  exfalso. apply H. apply existsb_exists in E. destruct E as (x & Hx & Hc).
  apply N.eqb_eq in Hc. subst x. exact Hx.
Qed.

Lemma lower_not_special (c : N) : special c = false -> special (lower c) = false.
Proof.
  intro Hc. destruct (lower_cases c) as [H | H]; [rewrite H; exact Hc|].
  apply special_false. cbn [In]. lia.
Qed.

Lemma str_lower_idempotent (s : pystr) : str_lower (str_lower s) = str_lower s.
Proof.
  unfold str_lower. rewrite map_map. apply map_ext. apply lower_idempotent.
Qed.

Lemma plain_str_lower (s : pystr) : plain s = true -> plain (str_lower s) = true.
Proof.
  unfold plain, str_lower. rewrite !forallb_forall. intros H c Hc.
  apply in_map_iff in Hc. destruct Hc as (c0 & <- & Hc0).
  specialize (H c0 Hc0). apply negb_true_iff in H. apply negb_true_iff.
  apply lower_not_special. exact H.
Qed.

Lemma some_keyword_in_lower (keywords : list pystr) (title : pystr) :
  some_keyword_in (map str_lower keywords) title = some_keyword_in keywords title /\
  some_keyword_in keywords (str_lower title) = some_keyword_in keywords title.
Proof.
  unfold some_keyword_in. destruct keywords as [|k ks]; [split; reflexivity|].
  cbn [map]. split.
  - change (str_lower k :: map str_lower ks) with (map str_lower (k :: ks)).
    generalize (k :: ks) as l. intro l.
    induction l as [|x l IH]; [reflexivity|].
    cbn [map existsb]. rewrite str_lower_idempotent, IH. reflexivity.
  - apply existsb_pointwise. intro x. rewrite str_lower_idempotent. reflexivity.
Qed.

(** X14. For keywords without special characters the letter case of the
    keywords does not matter: the filter keeps the same rows for the
    keywords and for the keywords in lower case (keywords and titles within
    the blocks whose letter case is modelled). *)
Theorem keyword_case_does_not_matter (possessive : bool) (keywords : list pystr)
    (df : DataFrame) :
  name_dtype df = ObjectDtype ->
  forallb plain keywords = true ->
  forallb covered keywords = true ->
  titles_covered df ->
  keyword_filter possessive (map str_lower keywords) df
  = keyword_filter possessive keywords df.
Proof.
  intros Hd Hp _ _.
  assert (Hp' : forallb plain (map str_lower keywords) = true).
  { rewrite forallb_forall in *. intros k Hk.
    apply in_map_iff in Hk. destruct Hk as (k0 & <- & Hk0).
    apply plain_str_lower. exact (Hp k0 Hk0). }
  rewrite (@keyword_filter_plain possessive (map str_lower keywords) df Hd Hp').
  rewrite (@keyword_filter_plain possessive keywords df Hd Hp).
  f_equal. f_equal. apply filter_pointwise. intro ir.
  unfold title_has_keyword. destruct (name (snd ir)); [|reflexivity].
  apply some_keyword_in_lower.
Qed.

(** ** Instances *)

Lemma requests_per_vacancy_witness :
  http_requests (fst (analyze_vacancies offline_world (u "vacancies_2024.csv")
                        program_keywords))
  <= 2 /\
  (snd (analyze_vacancies offline_world (u "vacancies_2024.csv") program_keywords)
   = Ok tt ->
   http_requests (fst (analyze_vacancies offline_world (u "vacancies_2024.csv")
                         program_keywords))
   = 2).
Proof.
  apply (@analyze_vacancies_requests_per_vacancy offline_world
           (u "vacancies_2024.csv") program_keywords two_rows
           (prepared two_rows)).
  - reflexivity.
  - vm_compute. reflexivity.
Defined.

Lemma filtered_rows_witness :
  is_some (name teacher_row) = true /\ is_some (area_name teacher_row) = true /\
  complete teacher_row /\
  exists r0, nth_error two_rows 1 = Some r0 /\ same_cells teacher_row r0.
Proof.
  apply (@filtered_rows_are_complete_file_rows true program_keywords two_rows
           (prepared two_rows) 1 teacher_row).
  - vm_compute. reflexivity.
  - vm_compute. right. left. reflexivity.
Defined.

Lemma endpoint_down_witness :
  apply_salary offline_world 0 (rows (prepared two_rows))
  = ([ EvHttpGet; EvPrint (MsgRatesError (IOError (u "unreachable")));
       EvHttpGet; EvPrint (MsgRatesError (IOError (u "unreachable"))) ],
     Ok [Some 50000%float; Some 135000%float]).
Proof.
  destruct (@salaries_when_endpoint_down offline_world
              (fun _ => IOError (u "unreachable")) (rows (prepared two_rows)))
    with (k := 0) as [H _].
  - intro n. reflexivity.
  - intros ir Hin. apply (@prepared_rows_complete two_rows). exact Hin.
  - rewrite H. vm_compute. reflexivity.
Defined.

Lemma null_rate_witness :
  get_currency_rates (rates_request null_usd_world 0)
  = ([EvHttpGet],
     Ok [ (u "RUR", PInt 1); (u "USD", PNone); (u "EUR", PFloat 99.5);
          (u "KZT", PFloat 0.18) ]) /\
  analyze_vacancies null_usd_world (u "vacancies_2024.csv") program_keywords
  = ([EvHttpGet], Raise TypeError).
Proof.
  apply (@null_rate_ends_the_run null_usd_world (u "vacancies_2024.csv")
           program_keywords [teacher_row] (prepared [teacher_row])
           0 teacher_row [] (PFloat 99.5) (PInt 18) 0.18%float).
  - reflexivity.
  - vm_compute. reflexivity.
  - vm_compute. reflexivity.
  - reflexivity.
  - reflexivity.
  - reflexivity.
Defined.

Lemma empty_keyword_witness :
  keyword_filter true [u "учитель"; []] (prepared two_rows) = Ok (prepared two_rows).
Proof.
  apply (@empty_keyword_keeps_every_row true [u "учитель"; []] (prepared two_rows)).
  - reflexivity.
  - reflexivity.
  - right. right. left. reflexivity.
  - intros ir Hin. vm_compute in Hin.
    destruct Hin as [<- | [<- | []]]; reflexivity.
Defined.

Lemma operator_keyword_witness :
  re_compile (possessive_quantifiers offline_world)
             (join (u "|") [u "+7 years"; u "учитель"]) = Raise ReError /\
  exists e,
    analyze_vacancies offline_world (u "vacancies_2024.csv") [u "+7 years"; u "учитель"]
    = ([], Raise e).
Proof.
  apply (@keyword_starting_with_operator_ends_run offline_world
           (u "vacancies_2024.csv") two_rows 43%N (u "7 years") [u "учитель"]).
  - reflexivity.
  - reflexivity.
Defined.

Lemma skills_witness :
  (forall c, In c (u "анал") -> separator c = false) /\ trimmed (u "анал").
Proof.
  apply (@skills_have_no_separator true [Some (u "Аналитика , Excel")]
           [Some (u "анал"); Some (u "т"); Some (u "ка"); Some (u "excel")]
           (u "анал")).
  - vm_compute. reflexivity.
  - left. reflexivity.
Defined.

Lemma cities_witness :
  plot_top_cities_by_year three_years 10
  = (if Nat.eqb 10 0 then []
     else map (cities_chart three_years 10) (sorted_unique [2024; 2023; 2024]%Z),
     Ok tt) /\
  StronglySorted Z.lt (sorted_unique [2024; 2023; 2024]%Z) /\
  (forall y, In y (sorted_unique [2024; 2023; 2024]%Z) <->
             exists iv, In iv (e_rows three_years) /\ year (snd iv) = Some y).
Proof.
  apply (@plot_top_cities_one_chart_per_year three_years 10 [2024; 2023; 2024]%Z).
  - reflexivity.
  - intros iv Hin. vm_compute in Hin.
    destruct Hin as [<- | [<- | [<- | []]]]; reflexivity.
Defined.

Lemma nth_salary_witness :
  exists t' rates s,
    get_currency_rates (rates_request offline_world (0 + 1)) = (t', Ok rates) /\
    calculate_salary (snd (1, teacher_row)) rates = Ok s /\
    nth_error [Some 50000%float; Some 135000%float] 1 = Some s.
Proof.
  apply (@nth_salary_uses_nth_request offline_world (rows (prepared two_rows)) 0
           [ EvHttpGet; EvPrint (MsgRatesError (IOError (u "unreachable")));
             EvHttpGet; EvPrint (MsgRatesError (IOError (u "unreachable"))) ]
           [Some 50000%float; Some 135000%float] 1 (1, teacher_row)).
  - vm_compute. reflexivity.
  - vm_compute. reflexivity.
Defined.

Lemma keyword_case_witness :
  keyword_filter true (map str_lower [u "Продавец"; u "УЧИТЕЛЬ"]) (prepared two_rows)
  = keyword_filter true [u "Продавец"; u "УЧИТЕЛЬ"] (prepared two_rows).
Proof.
  apply (@keyword_case_does_not_matter true [u "Продавец"; u "УЧИТЕЛЬ"]
           (prepared two_rows)).
  - reflexivity.
  - reflexivity.
  - reflexivity.
  - intros ir title Hin Hname. vm_compute in Hin.
    destruct Hin as [<- | [<- | []]]; injection Hname as <-; reflexivity.
Defined.
